(** * Flappy Bird: the game loop of [flappy.py] as a state machine

    A shallow embedding of the simulation loop of [src/flappy.py]: the module
    level variables become one record [Game], the sprite classes [Bird] and
    [Pipe] become records with their [update] methods as functions, and one
    pass through the body of [while run:] becomes [main_loop].  What the loop
    reads from the outside world during one pass (pressed keys and buttons,
    the clock, the random pipe height, the event queue) is gathered in the
    record [Frame].

    Numbers are modelled as the interpreter has them: the bird's velocity is
    a binary64 float (it is incremented by the literal [0.3]), everything else
    is an unbounded integer.  Drawing is left out, except for the two counters
    the draw functions update ([score_blink] and [fade_counter]). *)

From Stdlib Require Import ZArith List Bool Lia Floats.
Import ListNotations.

Open Scope Z_scope.

(** ** A small error monad

    [int(self.vel)] raises on a velocity that is infinite or not a number, so
    [Bird.update], and with it the loop body, is a partial function. *)

Definition bind {A B : Type} (m : option A) (k : A -> option B) : option B :=
  match m with
  | Some a => k a
  | None => None
  end.

Notation "x <- m ;; k" := (bind m (fun x => k))
  (at level 61, m at next level, right associativity).

Fixpoint iter {A : Type} (n : nat) (f : A -> A) (a : A) : A :=
  match n with
  | O => a
  | S k => iter k f (f a)
  end.

(** ** Floats

    Python's [int] on a float drops the fractional part (rounds toward zero);
    [math.floor] rounds toward minus infinity.  Both are read off the
    sign, mantissa and exponent of the float: its value is
    [(-1)^s * m * 2^e]. *)

Definition float_parts (f : float) : option (Z * Z) :=
  match Prim2SF f with
  | S754_zero _ => Some (0, 0)
  | S754_finite s m e => Some (if s then Z.neg m else Z.pos m, e)
  | S754_infinity _ => None
  | S754_nan => None
  end.

(** [int(f)] *)
Definition int_of_float (f : float) : option Z :=
  match float_parts f with
  | Some (m, e) =>
      Some (if 0 <=? e then m * 2 ^ e else Z.quot m (2 ^ (- e)))
  | None => None
  end.

(** [math.floor(f)], the function the specification names *)
Definition floor_of_float (f : float) : option Z :=
  match float_parts f with
  | Some (m, e) =>
      Some (if 0 <=? e then m * 2 ^ e else Z.div m (2 ^ (- e)))
  | None => None
  end.

(** Whether the float is a whole number. *)
Definition float_is_integer (f : float) : bool :=
  match float_parts f with
  | Some (m, e) => (0 <=? e) || (m mod 2 ^ (- e) =? 0)
  | None => false
  end.

(** ** Rectangles ([pygame.Rect]) *)

Module Rect.

Record t : Type := mk { x : Z; y : Z; w : Z; h : Z }.

Definition left (r : t) : Z := x r.
Definition top (r : t) : Z := y r.
Definition right (r : t) : Z := x r + w r.
Definition bottom (r : t) : Z := y r + h r.

Definition set_x (r : t) (v : Z) : t := mk v (y r) (w r) (h r).
Definition set_y (r : t) (v : Z) : t := mk (x r) v (w r) (h r).

(** [r.topleft = [a, b]] *)
Definition set_topleft (r : t) (a b : Z) : t := mk a b (w r) (h r).
(** [r.bottomleft = [a, b]] *)
Definition set_bottomleft (r : t) (a b : Z) : t := mk a (b - h r) (w r) (h r).
(** [r.center = [a, b]] *)
Definition set_center (r : t) (a b : Z) : t :=
  mk (a - w r / 2) (b - h r / 2) (w r) (h r).

(** [a.colliderect(b)]: the rectangles overlap in both axes; a rectangle
    of zero width or height overlaps nothing. *)
Definition colliderect (a b : t) : bool :=
  negb ((w a =? 0) || (h a =? 0) || (w b =? 0) || (h b =? 0))
  && (Z.min (x a) (x a + w a) <? Z.max (x b) (x b + w b))
  && (Z.min (y a) (y a + h a) <? Z.max (y b) (y b + h b))
  && (Z.max (x a) (x a + w a) >? Z.min (x b) (x b + w b))
  && (Z.max (y a) (y a + h a) >? Z.min (y b) (y b + h b)).

End Rect.

(** ** Constants of the module *)

Definition screen_width : Z := 500.
Definition screen_height : Z := 700.
Definition scroll_speed : Z := 3.
Definition pipe_gap : Z := 160.
Definition pipe_frequency : Z := 1800.
(** The literal [0.3] of [self.vel += 0.3], as the binary64 value the
    interpreter reads it as. *)
Definition gravity_accel : float := 0x1.3333333333333p-2%float.
(** [screen_height - 168], the top of the ground image *)
Definition ground_level : Z := screen_height - 168.
(** [int(screen_height / 2)] and [int(pipe_gap / 2)]: a true division of two
    small integers, then truncation. *)
Definition half_screen_height : Z := Z.quot screen_height 2.
Definition half_pipe_gap : Z := Z.quot pipe_gap 2.

(** ** Inputs of one pass through the loop *)

Inductive Key : Type := K_SPACE | K_UP | K_RETURN | K_other.

Inductive Event : Type :=
| QUIT
| MOUSEBUTTONDOWN
| KEYDOWN (key : Key)
| other_event.

Record Frame : Type := mkFrame {
  mouse_pressed : bool;        (* pygame.mouse.get_pressed()[0] *)
  key_space : bool;            (* pygame.key.get_pressed()[K_SPACE] *)
  key_up : bool;               (* ...[K_UP] *)
  key_return : bool;           (* ...[K_RETURN] *)
  mouse_pos : Z * Z;           (* pygame.mouse.get_pos() *)
  time_now : Z;                (* pygame.time.get_ticks() *)
  pipe_height : Z;             (* random.randint(-75, 75) *)
  events : list Event          (* pygame.event.get() *)
}.

(** ** Sprites *)

Record Bird : Type := mkBird {
  rect : Rect.t;
  vel : float;
  clicked : bool;
  counter : Z;
  index : Z
}.

Record Pipe : Type := mkPipe { pipe_rect : Rect.t }.

(** ** The module's variables *)

Record Game : Type := mkGame {
  run : bool;
  ground_scroll : Z;
  flying : bool;
  game_over : bool;
  game_started : bool;
  game_paused : bool;
  last_pipe : Z;
  score : Z;
  pass_pipe : bool;
  fade_counter : Z;
  score_blink : Z;
  high_score : Z;
  flappy : Bird;
  pipe_group : list Pipe;
  (** the content of [high_score.json]: [None] when the file is missing or
      does not hold a record with the key *)
  high_score_file : option Z
}.

Definition set_run (g : Game) (v : bool) : Game :=
  mkGame v (ground_scroll g) (flying g) (game_over g) (game_started g)
    (game_paused g) (last_pipe g) (score g) (pass_pipe g) (fade_counter g)
    (score_blink g) (high_score g) (flappy g) (pipe_group g) (high_score_file g).
Definition set_ground_scroll (g : Game) (v : Z) : Game :=
  mkGame (run g) v (flying g) (game_over g) (game_started g)
    (game_paused g) (last_pipe g) (score g) (pass_pipe g) (fade_counter g)
    (score_blink g) (high_score g) (flappy g) (pipe_group g) (high_score_file g).
Definition set_flying (g : Game) (v : bool) : Game :=
  mkGame (run g) (ground_scroll g) v (game_over g) (game_started g)
    (game_paused g) (last_pipe g) (score g) (pass_pipe g) (fade_counter g)
    (score_blink g) (high_score g) (flappy g) (pipe_group g) (high_score_file g).
Definition set_game_over (g : Game) (v : bool) : Game :=
  mkGame (run g) (ground_scroll g) (flying g) v (game_started g)
    (game_paused g) (last_pipe g) (score g) (pass_pipe g) (fade_counter g)
    (score_blink g) (high_score g) (flappy g) (pipe_group g) (high_score_file g).
Definition set_game_started (g : Game) (v : bool) : Game :=
  mkGame (run g) (ground_scroll g) (flying g) (game_over g) v
    (game_paused g) (last_pipe g) (score g) (pass_pipe g) (fade_counter g)
    (score_blink g) (high_score g) (flappy g) (pipe_group g) (high_score_file g).
Definition set_game_paused (g : Game) (v : bool) : Game :=
  mkGame (run g) (ground_scroll g) (flying g) (game_over g) (game_started g)
    v (last_pipe g) (score g) (pass_pipe g) (fade_counter g)
    (score_blink g) (high_score g) (flappy g) (pipe_group g) (high_score_file g).
Definition set_last_pipe (g : Game) (v : Z) : Game :=
  mkGame (run g) (ground_scroll g) (flying g) (game_over g) (game_started g)
    (game_paused g) v (score g) (pass_pipe g) (fade_counter g)
    (score_blink g) (high_score g) (flappy g) (pipe_group g) (high_score_file g).
Definition set_score (g : Game) (v : Z) : Game :=
  mkGame (run g) (ground_scroll g) (flying g) (game_over g) (game_started g)
    (game_paused g) (last_pipe g) v (pass_pipe g) (fade_counter g)
    (score_blink g) (high_score g) (flappy g) (pipe_group g) (high_score_file g).
Definition set_pass_pipe (g : Game) (v : bool) : Game :=
  mkGame (run g) (ground_scroll g) (flying g) (game_over g) (game_started g)
    (game_paused g) (last_pipe g) (score g) v (fade_counter g)
    (score_blink g) (high_score g) (flappy g) (pipe_group g) (high_score_file g).
Definition set_fade_counter (g : Game) (v : Z) : Game :=
  mkGame (run g) (ground_scroll g) (flying g) (game_over g) (game_started g)
    (game_paused g) (last_pipe g) (score g) (pass_pipe g) v
    (score_blink g) (high_score g) (flappy g) (pipe_group g) (high_score_file g).
Definition set_score_blink (g : Game) (v : Z) : Game :=
  mkGame (run g) (ground_scroll g) (flying g) (game_over g) (game_started g)
    (game_paused g) (last_pipe g) (score g) (pass_pipe g) (fade_counter g)
    v (high_score g) (flappy g) (pipe_group g) (high_score_file g).
Definition set_high_score (g : Game) (v : Z) : Game :=
  mkGame (run g) (ground_scroll g) (flying g) (game_over g) (game_started g)
    (game_paused g) (last_pipe g) (score g) (pass_pipe g) (fade_counter g)
    (score_blink g) v (flappy g) (pipe_group g) (high_score_file g).
Definition set_flappy (g : Game) (v : Bird) : Game :=
  mkGame (run g) (ground_scroll g) (flying g) (game_over g) (game_started g)
    (game_paused g) (last_pipe g) (score g) (pass_pipe g) (fade_counter g)
    (score_blink g) (high_score g) v (pipe_group g) (high_score_file g).
Definition set_pipe_group (g : Game) (v : list Pipe) : Game :=
  mkGame (run g) (ground_scroll g) (flying g) (game_over g) (game_started g)
    (game_paused g) (last_pipe g) (score g) (pass_pipe g) (fade_counter g)
    (score_blink g) (high_score g) (flappy g) v (high_score_file g).
Definition set_high_score_file (g : Game) (v : option Z) : Game :=
  mkGame (run g) (ground_scroll g) (flying g) (game_over g) (game_started g)
    (game_paused g) (last_pipe g) (score g) (pass_pipe g) (fade_counter g)
    (score_blink g) (high_score g) (flappy g) (pipe_group g) v.

(** ** High score management *)

(** [load_high_score()]: the stored value, 0 when there is none. *)
Definition load_high_score (file : option Z) : Z :=
  match file with
  | Some v => v
  | None => 0
  end.

(** [save_high_score(score)]: overwrites the file. *)
Definition save_high_score (g : Game) (v : Z) : Game :=
  set_high_score_file g (Some v).

(** ** The game, for given sizes of the images

    The images are not part of the sources; the sizes of [img/bird1.png] and
    of [img/pipe.png] are the parameters of the development. *)

Section Flappy.

Variables (bird_w bird_h pipe_w pipe_h : Z).

(** *** [class Bird] *)

(** [Bird.__init__(self, x, y)] *)
Definition Bird_init (a b : Z) : Bird :=
  mkBird (Rect.set_center (Rect.mk 0 0 bird_w bird_h) a b) 0%float false 0 0.

(** [self.vel += 0.3; if self.vel > 5: self.vel = 5] *)
Definition apply_gravity (v : float) : float :=
  let v' := (v + gravity_accel)%float in
  if (5 <? v')%float then 5%float else v'.

(** The block under [if flying == True:] *)
Definition Bird_fall (b : Bird) : option Bird :=
  let v := apply_gravity (vel b) in
  if Rect.bottom (rect b) <? ground_level then
    dy <- int_of_float v ;;
    Some (mkBird (Rect.set_y (rect b) (Rect.y (rect b) + dy)) v
                 (clicked b) (counter b) (index b))
  else
    Some (mkBird (rect b) v (clicked b) (counter b) (index b)).

(** [pygame.mouse.get_pressed()[0] == 1 or keys[K_SPACE] or keys[K_UP]] *)
Definition jump_pressed (inp : Frame) : bool :=
  mouse_pressed inp || key_space inp || key_up inp.

(** [pygame.mouse.get_pressed()[0] == 0 and not keys[K_SPACE] and not keys[K_UP]] *)
Definition jump_released (inp : Frame) : bool :=
  negb (mouse_pressed inp) && negb (key_space inp) && negb (key_up inp).

(** The condition of the first [if] under [#jump]: the impulse is applied. *)
Definition impulse_applied (inp : Frame) (b : Bird) : bool :=
  jump_pressed inp && negb (clicked b).

(** The two [if]s under [#jump] *)
Definition Bird_jump (inp : Frame) (b : Bird) : Bird :=
  let b1 :=
    if impulse_applied inp b
    then mkBird (rect b) (-7)%float true (counter b) (index b)
    else b in
  if jump_released inp
  then mkBird (rect b1) (vel b1) false (counter b1) (index b1)
  else b1.

(** The block under [#handle the animation]; there are three images. *)
Definition Bird_animate (b : Bird) : Bird :=
  let c := counter b + 1 in
  if c >? 5 then
    let i := index b + 1 in
    mkBird (rect b) (vel b) (clicked b) 0 (if i >=? 3 then 0 else i)
  else
    mkBird (rect b) (vel b) (clicked b) c (index b).

(** [Bird.update(self)], reading the globals [flying] and [game_over] *)
Definition Bird_update (fl go : bool) (inp : Frame) (b : Bird) : option Bird :=
  b1 <- (if fl then Bird_fall b else Some b) ;;
  if negb go then Some (Bird_animate (Bird_jump inp b1)) else Some b1.

(** *** [class Pipe] *)

(** [Pipe.__init__(self, x, y, position)] *)
Definition Pipe_init (a b position : Z) : Pipe :=
  let r := Rect.mk 0 0 pipe_w pipe_h in
  if position =? 1 then
    mkPipe (Rect.set_bottomleft r a (b - half_pipe_gap))
  else if position =? -1 then
    mkPipe (Rect.set_topleft r a (b + half_pipe_gap))
  else
    mkPipe r.

(** [Pipe.update(self)]: [None] when the pipe kills itself. *)
Definition Pipe_update (p : Pipe) : option Pipe :=
  let r := Rect.set_x (pipe_rect p) (Rect.x (pipe_rect p) - scroll_speed) in
  if Rect.right r <? 0 then None else Some (mkPipe r).

(** [pipe_group.update()]: every sprite of the group is updated; the killed
    ones leave the group, the others keep their order. *)
Definition pipe_group_update (ps : list Pipe) : list Pipe :=
  flat_map (fun p => match Pipe_update p with
                     | Some q => [q]
                     | None => []
                     end) ps.

(** *** Functions of the module *)

(** [draw_score()], as far as it changes a variable *)
Definition draw_score (g : Game) : Game :=
  set_score_blink g ((score_blink g + 1) mod 60).

(** [draw_game_over_screen()], as far as it changes a variable *)
Definition draw_game_over_screen (g : Game) : Game :=
  set_fade_counter g (fade_counter g + 1).

(** [reset_game()]: its effect on the sprites; it returns 0. *)
Definition reset_game (g : Game) : Game * Z :=
  let g1 := set_pipe_group g [] in
  let b := flappy g1 in
  let r := Rect.set_y (Rect.set_x (rect b) 100) half_screen_height in
  (set_flappy g1 (mkBird r (vel b) (clicked b) (counter b) (index b)), 0).

(** *** The body of [while run:] *)

(** [bird_group.update()] under [if game_started and not game_paused:] *)
Definition update_birds (inp : Frame) (g : Game) : option Game :=
  if game_started g && negb (game_paused g) then
    b <- Bird_update (flying g) (game_over g) inp (flappy g) ;;
    Some (set_flappy g b)
  else Some g.

(** [if game_started and not game_over: draw_score() ...] *)
Definition draw_hud (g : Game) : Game :=
  if game_started g && negb (game_over g) then draw_score g else g.

(** [#check the score], on the rectangles of the bird and of the first pipe *)
Definition score_block (b r : Rect.t) (g : Game) : Game :=
  let g1 :=
    if (Rect.left b >? Rect.left r) && (Rect.right b <? Rect.right r)
       && negb (pass_pipe g)
    then set_pass_pipe g true
    else g in
  if pass_pipe g1 then
    if Rect.left b >? Rect.right r then
      let g2 := set_pass_pipe (set_score g1 (score g1 + 1)) false in
      if score g2 >? high_score g2 then set_high_score g2 (score g2) else g2
    else g1
  else g1.

Definition check_score (g : Game) : Game :=
  match pipe_group g with
  | p :: _ =>
      if negb (game_paused g)
      then score_block (rect (flappy g)) (pipe_rect p) g
      else g
  | [] => g
  end.

(** [#generate new pipes] *)
Definition spawn_pipes (inp : Frame) (g : Game) : Game :=
  if time_now inp - last_pipe g >? pipe_frequency then
    let btm_pipe := Pipe_init screen_width (half_screen_height + pipe_height inp) (-1) in
    let top_pipe := Pipe_init screen_width (half_screen_height + pipe_height inp) 1 in
    set_last_pipe (set_pipe_group g (pipe_group g ++ [btm_pipe] ++ [top_pipe]))
                  (time_now inp)
  else g.

(** [if flying == True and game_over == False and not game_paused:] *)
Definition spawn_and_scroll (inp : Frame) (g : Game) : Game :=
  if flying g && negb (game_over g) && negb (game_paused g) then
    let g1 := spawn_pipes inp g in
    let g2 := set_pipe_group g1 (pipe_group_update (pipe_group g1)) in
    let s := ground_scroll g2 - scroll_speed in
    set_ground_scroll g2 (if Z.abs s >? 35 then 0 else s)
  else g.

(** The three assignments of a fatal collision *)
Definition end_run (g : Game) : Game :=
  set_flying (set_game_started (set_game_over g true) false) false.

(** [pygame.sprite.groupcollide(bird_group, pipe_group, False, False)], as
    a truth value: some pipe overlaps the bird. *)
Definition groupcollide (b : Bird) (ps : list Pipe) : bool :=
  existsb (fun p => Rect.colliderect (rect b) (pipe_rect p)) ps.

(** [# Check for collisions] *)
Definition check_collisions (g : Game) : Game :=
  if game_started g && negb (game_paused g) then
    let g1 :=
      if groupcollide (flappy g) (pipe_group g) || (Rect.top (rect (flappy g)) <? 0)
      then end_run g else g in
    if Rect.bottom (rect (flappy g1)) >=? ground_level then end_run g1 else g1
  else g.

(** [pygame.mouse.get_pressed()[0] or keys[K_SPACE] or keys[K_RETURN]] *)
Definition restart_pressed (inp : Frame) : bool :=
  mouse_pressed inp || key_space inp || key_return inp.

(** [# Check for restart input], the [if] and its body *)
Definition restart_block (inp : Frame) (g : Game) : Game :=
  if (fade_counter g >? 20) && restart_pressed inp then
    let g1 := set_game_over g false in
    let g2 := set_game_started g1 true in
    let g3 := set_fade_counter g2 0 in
    let g4 := set_flying g3 false in
    let g5 :=
      if score g4 >? high_score g4
      then let g' := set_high_score g4 (score g4) in
           save_high_score g' (high_score g')
      else g4 in
    let (g6, s) := reset_game g5 in
    set_score g6 s
  else g.

(** [#check for game over and reset] *)
Definition game_over_block (inp : Frame) (g : Game) : Game :=
  if game_over g then restart_block inp (draw_game_over_screen g) else g.

(** One event of [for event in pygame.event.get():] *)
Definition handle_event (inp : Frame) (g : Game) (e : Event) : Game :=
  match e with
  | QUIT => set_run g false
  | MOUSEBUTTONDOWN =>
      if negb (game_over g) && game_started g then
        if (fst (mouse_pos inp) <? 60) && (snd (mouse_pos inp) <? 60)
        then set_game_paused g (negb (game_paused g))
        else if negb (game_paused g) then set_flying g true else g
      else if negb (game_over g) && negb (game_started g) then
        set_game_started (set_flying g true) true
      else g
  | KEYDOWN K_SPACE | KEYDOWN K_UP =>
      if game_paused g then set_game_paused g false
      else if negb (flying g) && negb (game_over g)
           then set_game_started (set_flying g true) true
           else g
  | KEYDOWN K_RETURN =>
      if game_started g && negb (game_over g)
      then set_game_paused g (negb (game_paused g))
      else g
  | KEYDOWN K_other => g
  | other_event => g
  end.

Definition handle_events (inp : Frame) (g : Game) : Game :=
  fold_left (handle_event inp) (events inp) g.

(** One pass through the body of the loop. *)
Definition main_loop (inp : Frame) (g : Game) : option Game :=
  g1 <- update_birds inp g ;;
  let g2 := draw_hud g1 in
  let g3 := check_score g2 in
  let g4 := spawn_and_scroll inp g3 in
  let g5 := check_collisions g4 in
  let g6 := game_over_block inp g5 in
  Some (handle_events inp g6).

(** [while run:] over the frames [inps]: the passes of the loop until the
    frames are used up or [run] is false. *)
Fixpoint main_loops (inps : list Frame) (g : Game) : option Game :=
  match inps with
  | [] => Some g
  | inp :: rest =>
      if run g then g' <- main_loop inp g ;; main_loops rest g' else Some g
  end.

(** The variables as the module leaves them before the loop: [file] is the
    content of the score file and [t0] the clock when [last_pipe] is set. *)
Definition initial_game (file : option Z) (t0 : Z) : Game :=
  mkGame true 0 false false false false (t0 - pipe_frequency) 0 false 0 0
    (load_high_score file) (Bird_init 100 half_screen_height) [] file.

End Flappy.

(** ** The velocities the bird can have

    The velocity starts at 0, a jump sets it to -7 and gravity maps it by
    [apply_gravity]: it stays on the two orbits of [apply_gravity] from 0
    and from -7, which both end in the fixed point 5. *)

Definition vel_ok (v : float) : Prop :=
  exists n, v = iter n apply_gravity 0%float \/ v = iter n apply_gravity (-7)%float.

(** ** Runs

    [Bird.update] over several passes of the loop; each pass comes with the
    value of [flying] it sees. *)

Fixpoint Bird_updates (go : bool) (steps : list (bool * Frame)) (b : Bird)
  : option Bird :=
  match steps with
  | [] => Some b
  | (fl, inp) :: rest => b' <- Bird_update fl go inp b ;; Bird_updates go rest b'
  end.

(** For each pass of such a run, whether the jump impulse was applied. *)
Fixpoint impulse_trace (go : bool) (steps : list (bool * Frame)) (b : Bird)
  : list bool :=
  match steps with
  | [] => []
  | (fl, inp) :: rest =>
      match Bird_update fl go inp b with
      | Some b' => (negb go && impulse_applied inp b) :: impulse_trace go rest b'
      | None => []
      end
  end.

(** The states of the game: those the loop reaches from the start of the
    program, when the score file holds [file]. *)
Inductive reachable (bird_w bird_h pipe_w pipe_h : Z) (file : option Z)
  : Game -> Prop :=
| reach_init t0 :
    reachable bird_w bird_h pipe_w pipe_h file (initial_game bird_w bird_h file t0)
| reach_step g inp g' :
    reachable bird_w bird_h pipe_w pipe_h file g ->
    run g = true ->
    main_loop pipe_w pipe_h inp g = Some g' ->
    reachable bird_w bird_h pipe_w pipe_h file g'.

(** An event that toggles or ends the pause of a started game: a click on
    the pause button, the space bar, the up arrow or the return key. *)
Definition toggle_input (inp : Frame) (e : Event) : bool :=
  match e with
  | MOUSEBUTTONDOWN => (fst (mouse_pos inp) <? 60) && (snd (mouse_pos inp) <? 60)
  | KEYDOWN K_SPACE | KEYDOWN K_UP | KEYDOWN K_RETURN => true
  | _ => false
  end.

(** ** Concrete inputs

    The sizes used where a concrete game is run: a bird image of 51 by 36
    and a pipe image of 78 by 560. *)

(** A pass of the loop with nothing pressed and no event, at clock [t]. *)
Definition idle_frame (t : Z) : Frame :=
  mkFrame false false false false (250, 350) t 0 [].

(** A pass during which the space bar is held down. *)
Definition space_held (t : Z) : Frame :=
  mkFrame false true false false (250, 350) t 0 [].

(** The bird at its starting place, in the air, just after a jump. *)
Definition bird_after_jump : Bird :=
  mkBird (Rect.mk 75 332 51 36) (-7)%float true 0 0.

(** A played session: the space bar is tapped during the passes listed in
    [taps].  The tap arrives as a [KEYDOWN] event at the end of its pass, the
    key reads as pressed during the next pass, and its release arrives as an
    event the loop ignores.  Pass [i] is at 17 [i] milliseconds (60 passes a
    second) and every pipe is spawned at height 0. *)
Definition tapped (taps : list Z) (i : Z) : bool := existsb (Z.eqb i) taps.

Definition tap_frame (taps : list Z) (i : Z) : Frame :=
  mkFrame false (tapped taps (i - 1)) false false (250, 350) (17 * i) 0
    (if tapped taps i then [KEYDOWN K_SPACE]
     else if tapped taps (i - 1) then [other_event] else []).

(** The first [n] passes of the session. *)
Definition play (taps : list Z) (n : nat) : list Frame :=
  map (fun i => tap_frame taps (Z.of_nat i)) (seq 1 n).

(** A session that passes the first pair of pipes, drops to the ground and
    asks for the restart with a tap during pass 250. *)
Definition score_then_fall : list Z := [1; 52; 98; 145; 250].

(** A session that flies into the upper pipe of the first pair from inside
    the pair, and asks for the restart with a tap during pass 180. *)
Definition crash_in_pipe : list Z := [1; 52; 98; 140; 180].

(** The game after 250 passes of [score_then_fall]: over, on the ground,
    with a score of 1. *)
Definition crashed_game : Game :=
  mkGame true (-15) false true false false 3638 1 false 29 41 1
    (mkBird (Rect.mk 75 500 51 36) 5%float false 5 0)
    [mkPipe (Rect.mk 155 430 78 560); mkPipe (Rect.mk 155 (-290) 78 560);
     mkPipe (Rect.mk 473 430 78 560); mkPipe (Rect.mk 473 (-290) 78 560)]
    None.

(** The game one pass later, restarted by the tap of pass 250. *)
Definition restarted_game : Game :=
  mkGame true (-15) false false true false 3638 0 false 0 41 1
    (mkBird (Rect.mk 100 350 51 36) 5%float false 5 0) [] None.

(** A pass during which the return key goes down. *)
Definition return_frame (t : Z) : Frame :=
  mkFrame false false false false (250, 350) t 0 [KEYDOWN K_RETURN].

(** A session that is launched and, three passes later, paused. *)
Definition launch_then_pause : list Frame :=
  play [1] 3 ++ [return_frame 68].

(** The game at the end of [launch_then_pause]: started and paused. *)
Definition paused_game : Game :=
  mkGame true (-9) true false true true 34 0 false 0 3 0
    (mkBird (Rect.mk 75 320 51 36) (iter 2 apply_gravity (-7)%float) false 3 0)
    [mkPipe (Rect.mk 491 430 78 560); mkPipe (Rect.mk 491 (-290) 78 560)]
    None.

(** The game after 143 and after 144 passes of [crash_in_pipe]: the bird is
    about to be, and then is, inside the span of the first pipe. *)
Definition entering_game : Game :=
  mkGame true (-30) true false true false 1836 0 false 0 22 0
    (mkBird (Rect.mk 75 316 51 36) (iter 2 apply_gravity (-7)%float) false 4 2)
    [mkPipe (Rect.mk 74 430 78 560); mkPipe (Rect.mk 74 (-290) 78 560);
     mkPipe (Rect.mk 392 430 78 560); mkPipe (Rect.mk 392 (-290) 78 560)]
    None.

Definition entered_game : Game :=
  mkGame true (-33) true false true false 1836 0 true 0 23 0
    (mkBird (Rect.mk 75 310 51 36) (iter 3 apply_gravity (-7)%float) false 5 2)
    [mkPipe (Rect.mk 71 430 78 560); mkPipe (Rect.mk 71 (-290) 78 560);
     mkPipe (Rect.mk 389 430 78 560); mkPipe (Rect.mk 389 (-290) 78 560)]
    None.

(** ** The pause and the other flags

    A paused game is started and not over. *)
Definition pause_inv (g : Game) : Prop :=
  game_paused g = true -> game_started g = true /\ game_over g = false.

(** No event of the pass is a toggle or resume input. *)
Definition no_toggle (inp : Frame) : bool :=
  forallb (fun e => negb (toggle_input inp e)) (events inp).

(** ** The scoring block over several passes

    The bird is strictly inside the horizontal span of a pipe, and the bird
    has cleared the pipe: the two tests of the scoring block. *)
Definition inside_span (b r : Rect.t) : bool :=
  (Rect.left b >? Rect.left r) && (Rect.right b <? Rect.right r).

Definition cleared (b r : Rect.t) : bool := Rect.left b >? Rect.right r.

(** The scoring block on successive passes, the bird being at [b] and the
    first pipe of the group at the rectangles [rs] in turn. *)
Fixpoint score_run (b : Rect.t) (rs : list Rect.t) (g : Game) : Game :=
  match rs with
  | [] => g
  | r :: rest => score_run b rest (score_block b r g)
  end.

(** The rectangles of a pipe that never moves to the right: the right edge
    of a later one is not to the right of an earlier one. *)
Fixpoint moving_left (rs : list Rect.t) : Prop :=
  match rs with
  | [] => True
  | r :: rest =>
      Forall (fun r' => Rect.right r' <= Rect.right r) rest /\ moving_left rest
  end.

(** During the passes [rs] the bird was inside the span, or the pass flag
    was already set, and on a later pass it had cleared the pipe. *)
Definition passed (flag : bool) (b : Rect.t) (rs : list Rect.t) : Prop :=
  exists rs1 r rs2,
    rs = rs1 ++ r :: rs2 /\
    cleared b r = true /\
    (flag = true \/ Exists (fun r' => inside_span b r' = true) rs1).

(** ** More of the module: what the draw functions compute *)

(** [draw_game_over_screen()]: the opacity of the dark overlay,
    [min(120, fade_counter * 4)], and the two tests on the fade counter that
    show the best score and the restart hint. *)
Definition overlay_alpha (fade : Z) : Z := Z.min 120 (fade * 4).
Definition best_score_shown (fade : Z) : bool := fade >? 10.
Definition restart_hint_shown (fade : Z) : bool := fade >? 30.

(** [draw_pause_button()]: the rectangle of the button,
    [pygame.Rect(20, 20, 40, 40)]. *)
Definition pause_button_rect : Rect.t := Rect.mk 20 20 40 40.

(** [r.collidepoint(p)]: the point is inside the rectangle, its right and
    bottom edges excluded. *)
Definition collidepoint (r : Rect.t) (p : Z * Z) : bool :=
  (Rect.x r <=? fst p) && (fst p <? Rect.x r + Rect.w r)
  && (Rect.y r <=? snd p) && (snd p <? Rect.y r + Rect.h r).

(** ** States of the loop *)

(** The flags of the game fit together: a game that is over is neither
    started, flying nor paused; a flying or paused game is started. *)
Definition flags_ok (g : Game) : Prop :=
  (game_over g = true ->
   game_started g = false /\ flying g = false /\ game_paused g = false) /\
  (flying g = true -> game_started g = true) /\
  (game_paused g = true -> game_started g = true).

(** The bird touches no pipe and is between the top of the screen and the
    ground: none of the tests of the collision block holds. *)
Definition bird_is_safe (g : Game) : Prop :=
  groupcollide (flappy g) (pipe_group g) = false /\
  0 <= Rect.top (rect (flappy g)) /\
  Rect.bottom (rect (flappy g)) < ground_level.

(** An event that launches a game that is not started: a mouse click, the
    space bar or the up arrow. *)
Definition launch_input (e : Event) : bool :=
  match e with
  | MOUSEBUTTONDOWN | KEYDOWN K_SPACE | KEYDOWN K_UP => true
  | _ => false
  end.

(** An event that can pause a game: the return key, or a click on the pause
    button's corner of the screen. *)
Definition pause_input (inp : Frame) (e : Event) : bool :=
  match e with
  | MOUSEBUTTONDOWN => (fst (mouse_pos inp) <? 60) && (snd (mouse_pos inp) <? 60)
  | KEYDOWN K_RETURN => true
  | _ => false
  end.

(** The restart test of a pass over a game that is over: the fade counter,
    after its increment, is above 20 and a restart input is pressed. *)
Definition restarts (inp : Frame) (g : Game) : bool :=
  (fade_counter g + 1 >? 20) && restart_pressed inp.

(** ** Pairs of pipes

    The two pipes the spawner makes for the x [a] and the gap centre [c], and
    the group made of the pairs of a list of such [(a, c)]. *)
Definition pipe_pair (pw ph : Z) (ac : Z * Z) : list Pipe :=
  [Pipe_init pw ph (fst ac) (snd ac) (-1); Pipe_init pw ph (fst ac) (snd ac) 1].

Definition pipe_pairs (pw ph : Z) (l : list (Z * Z)) : list Pipe :=
  flat_map (pipe_pair pw ph) l.

(** The x of the pairs grow along the list. *)
Fixpoint increasing (xs : list Z) : Prop :=
  match xs with
  | [] => True
  | x :: rest => Forall (fun y => x < y) rest /\ increasing rest
  end.

(** [pipe_group.update()] on a group of pairs, in terms of their [(a, c)]:
    every pair moves left by [scroll_speed], and leaves when its right edge
    is below 0. *)
Definition shift_pairs (pw : Z) (l : list (Z * Z)) : list (Z * Z) :=
  filter (fun ac => negb (fst ac + pw <? 0))
         (map (fun ac => (fst ac - scroll_speed, snd ac)) l).

(** ** The scoring block over the passes of the loop

    The rectangles the scoring block tests during the session [inps] from
    [g]: on each pass over a game that has pipes and is not paused, the
    rectangle of the first pipe of the group, as the pass finds it. *)
Fixpoint tested_rects (pw ph : Z) (inps : list Frame) (g : Game) : list Rect.t :=
  match inps with
  | [] => []
  | inp :: rest =>
      if run g then
        match main_loop pw ph inp g with
        | Some g' =>
            match pipe_group g with
            | p :: _ => if game_paused g then [] else [pipe_rect p]
            | [] => []
            end ++ tested_rects pw ph rest g'
        | None => []
        end
      else []
  end.

(** No pass of the session [inps] from [g] meets the restart test. *)
Fixpoint no_restart (pw ph : Z) (inps : list Frame) (g : Game) : bool :=
  match inps with
  | [] => true
  | inp :: rest =>
      if run g then
        match main_loop pw ph inp g with
        | Some g' => negb (restarts inp g) && no_restart pw ph rest g'
        | None => true
        end
      else true
  end.

(** Each rectangle of the list has its right edge at or to the left of the
    one before it. *)
Fixpoint descending (rs : list Rect.t) : bool :=
  match rs with
  | r :: (r' :: _) as rest => (Rect.right r' <=? Rect.right r) && descending rest
  | _ => true
  end.

(** ** A session with a pause

    The passes [a], [a + 1], ... of a session, [n] of them. *)
Definition play_from (taps : list Z) (a n : nat) : list Frame :=
  map (fun i => tap_frame taps (Z.of_nat i)) (seq a n).

(** A session that is launched, paused on pass 4 by the return key, resumed
    on pass 108 by the space bar, and then flown through the gap of the
    pipes: the clock has run during the pause, so that a second pair of
    pipes is made on the pass after the resume, 9 pixels behind the first. *)
Definition two_close_pairs : list Z := [1; 108; 190; 222; 261].

Definition pause_then_play (n : nat) : list Frame :=
  play two_close_pairs 3 ++ [return_frame 68] ++ play_from two_close_pairs 5 n.

(** The game after 250 passes of that session: the bird is inside the span
    of the first pair, at 65, and of the second, at 74. *)
Definition inside_both_game : Game :=
  mkGame true (-3) true false true false 3655 0 true 0 9 0
    (mkBird (Rect.mk 75 364 51 36) (iter 27 apply_gravity (-7)%float) false 1 0)
    [mkPipe (Rect.mk 65 430 78 560); mkPipe (Rect.mk 65 (-290) 78 560);
     mkPipe (Rect.mk 74 430 78 560); mkPipe (Rect.mk 74 (-290) 78 560);
     mkPipe (Rect.mk 392 430 78 560); mkPipe (Rect.mk 392 (-290) 78 560)]
    None.

(** The game after 302 passes: both pairs have left the screen behind the
    bird, the third pair is still ahead. *)
Definition after_pairs_game : Game :=
  mkGame true (-15) true false true false 3655 1 false 0 1 1
    (mkBird (Rect.mk 75 361 51 36) (iter 40 apply_gravity (-7)%float) false 5 2)
    [mkPipe (Rect.mk 236 430 78 560); mkPipe (Rect.mk 236 (-290) 78 560)]
    None.

(** The game after 172 passes of [score_then_fall]: the first pair is
    behind the bird and still the first of the group. *)
Definition credited_game : Game :=
  mkGame true (-9) true false true false 1836 1 false 0 51 1
    (mkBird (Rect.mk 75 285 51 36) (iter 26 apply_gravity (-7)%float) false 3 1)
    [mkPipe (Rect.mk (-13) 430 78 560); mkPipe (Rect.mk (-13) (-290) 78 560);
     mkPipe (Rect.mk 305 430 78 560); mkPipe (Rect.mk 305 (-290) 78 560)]
    None.

(** * Properties *)

(** ** Rounding a float to an integer *)

(** Truncation and floor of a quotient by a positive number: they agree on
    a non-negative or exact quotient and differ by one otherwise. *)
Lemma quot_vs_div (m d : Z) :
  0 < d ->
  Z.quot m d = if (0 <=? m / d) || (m mod d =? 0) then m / d else m / d + 1.
Proof.
  intros Hd.
  destruct (Z.lt_ge_cases m 0) as [Hm | Hm].
  - assert (Hlt : m / d < 0) by (apply Z.div_lt_upper_bound; lia).
    replace (0 <=? m / d) with false by (symmetry; apply Z.leb_gt; exact Hlt).
    cbn [orb].
    pose proof (Z.div_mod m d ltac:(lia)) as Hdm.
    pose proof (Z.mod_pos_bound m d Hd) as Hb.
    pose proof (Z.quot_rem' m d) as Hqr.
    pose proof (Z.rem_bound_pos_neg m d Hd ltac:(lia)) as Hr.
    destruct (Z.eqb_spec (m mod d) 0) as [H0 | H0]; nia.
  - rewrite Z.quot_div_nonneg by lia.
    assert (Hge : 0 <= m / d) by (apply Z.div_pos; lia).
    apply Z.leb_le in Hge. now rewrite Hge.
Qed.

Lemma int_vs_floor (v : float) (dy : Z) :
  int_of_float v = Some dy ->
  exists fl,
    floor_of_float v = Some fl /\
    dy = if (0 <=? fl) || float_is_integer v then fl else fl + 1.
Proof.
  unfold int_of_float, floor_of_float, float_is_integer.
  destruct (float_parts v) as [[m e] | ]; [ | discriminate].
  intros H; injection H as <-.
  destruct (Z.leb_spec 0 e) as [He | He].
  - eexists; split; [reflexivity | ].
    cbn [orb]. rewrite Bool.orb_true_r. reflexivity.
  - eexists; split; [reflexivity | ].
    cbn [orb]. apply quot_vs_div. apply Z.pow_pos_nonneg; lia.
Qed.

(** ** The velocities the bird can have *)

Lemma iter_comm {A : Type} (f : A -> A) (n : nat) (a : A) :
  iter n f (f a) = f (iter n f a).
Proof.
  revert a; induction n as [ | n IH]; intros a; cbn [iter]; [reflexivity | ].
  apply IH.
Qed.

Lemma iter_plus {A : Type} (f : A -> A) (n k : nat) (a : A) :
  iter (n + k) f a = iter k f (iter n f a).
Proof.
  revert a; induction n as [ | n IH]; intros a; cbn [iter Nat.add]; [reflexivity | ].
  apply IH.
Qed.

Lemma gravity_fixed_point : apply_gravity 5%float = 5%float.
Proof. vm_compute. reflexivity. Qed.

Lemma orbit_stays (v0 : float) (N : nat) :
  iter N apply_gravity v0 = 5%float ->
  forall n, (N <= n)%nat -> iter n apply_gravity v0 = 5%float.
Proof.
  intros HN n Hn.
  replace n with (N + (n - N))%nat by lia.
  rewrite iter_plus, HN.
  induction (n - N)%nat as [ | k IH]; cbn [iter]; [reflexivity | ].
  now rewrite gravity_fixed_point.
Qed.

(** A decidable property of every point of an orbit that reaches 5 after
    [N] steps is checked on its first [N + 1] points. *)
Lemma orbit_forall (P : float -> bool) (v0 : float) (N : nat) :
  iter N apply_gravity v0 = 5%float ->
  forallb (fun n => P (iter n apply_gravity v0)) (seq 0 (S N)) = true ->
  forall n, P (iter n apply_gravity v0) = true.
Proof.
  intros HN Hall n.
  rewrite forallb_forall in Hall.
  destruct (Nat.le_gt_cases n N) as [Hle | Hgt].
  - apply Hall, in_seq. lia.
  - rewrite (orbit_stays v0 N HN n) by lia.
    rewrite <- HN. apply Hall, in_seq. lia.
Qed.

Lemma vel_ok_forall (P : float -> bool) :
  forallb (fun n => P (iter n apply_gravity 0%float)) (seq 0 18) = true ->
  forallb (fun n => P (iter n apply_gravity (-7)%float)) (seq 0 42) = true ->
  forall v, vel_ok v -> P v = true.
Proof.
  intros H0 H7 v [n [-> | ->]].
  - apply (orbit_forall P 0%float 17); [vm_compute; reflexivity | exact H0].
  - apply (orbit_forall P (-7)%float 41); [vm_compute; reflexivity | exact H7].
Qed.

Lemma vel_ok_init : vel_ok 0%float.
Proof. exists 0%nat. now left. Qed.

Lemma vel_ok_jump : vel_ok (-7)%float.
Proof. exists 0%nat. now right. Qed.

Lemma vel_ok_gravity (v : float) : vel_ok v -> vel_ok (apply_gravity v).
Proof.
  intros [n [-> | ->]]; exists (S n); [left | right]; cbn [iter];
    now rewrite iter_comm.
Qed.

Lemma vel_ok_le_5 (v : float) : vel_ok v -> (v <=? 5)%float = true.
Proof.
  apply (vel_ok_forall (fun v => (v <=? 5)%float)); vm_compute; reflexivity.
Qed.

Lemma vel_ok_int (v : float) : vel_ok v -> exists dy, int_of_float v = Some dy.
Proof.
  intros Hv.
  pose proof (vel_ok_forall
                (fun v => match int_of_float v with Some _ => true | None => false end)
                ltac:(vm_compute; reflexivity) ltac:(vm_compute; reflexivity) v Hv) as H.
  cbv beta in H.
  destruct (int_of_float v) as [dy | ]; [now exists dy | discriminate].
Qed.

(** ** [Bird.update] *)

Lemma jump_released_pressed (inp : Frame) :
  jump_released inp = negb (jump_pressed inp).
Proof.
  unfold jump_released, jump_pressed.
  destruct (mouse_pressed inp), (key_space inp), (key_up inp); reflexivity.
Qed.

(** The falling block never fails on a velocity of the game. *)
Lemma Bird_fall_ok (b : Bird) :
  vel_ok (vel b) ->
  exists b',
    Bird_fall b = Some b' /\
    vel b' = apply_gravity (vel b) /\
    clicked b' = clicked b.
Proof.
  intros Hv. unfold Bird_fall.
  destruct (Rect.bottom (rect b) <? ground_level).
  - destruct (vel_ok_int _ (vel_ok_gravity _ Hv)) as [dy ->]. cbn [bind].
    eexists; repeat split.
  - eexists; repeat split.
Qed.

(** What one update does to the velocity and to the latch. *)
Lemma Bird_update_ok (fl go : bool) (inp : Frame) (b : Bird) :
  vel_ok (vel b) ->
  exists b',
    Bird_update fl go inp b = Some b' /\
    vel b' = (if negb go && impulse_applied inp b then (-7)%float
              else if fl then apply_gravity (vel b) else vel b) /\
    clicked b' = (if go then clicked b else jump_pressed inp).
Proof.
  intros Hv. unfold Bird_update.
  assert (Hfall : exists b1,
             (if fl then Bird_fall b else Some b) = Some b1 /\
             vel b1 = (if fl then apply_gravity (vel b) else vel b) /\
             clicked b1 = clicked b).
  { destruct fl; [apply Bird_fall_ok, Hv | now exists b]. }
  destruct Hfall as (b1 & -> & Hvel & Hcl). cbn [bind].
  destruct go; cbn [negb andb].
  - exists b1. now repeat split.
  - eexists; split; [reflexivity | ].
    unfold Bird_animate, Bird_jump, impulse_applied.
    rewrite jump_released_pressed, Hcl.
    destruct (jump_pressed inp), (clicked b); cbn [negb andb];
      match goal with |- context [?c >? 5] => destruct (c >? 5) end;
      cbn [vel clicked]; auto.
Qed.

Lemma Bird_update_vel_ok (fl go : bool) (inp : Frame) (b b' : Bird) :
  vel_ok (vel b) -> Bird_update fl go inp b = Some b' -> vel_ok (vel b').
Proof.
  intros Hv Hb.
  destruct (Bird_update_ok fl go inp b Hv) as (b2 & Hb2 & Hvel & _).
  rewrite Hb in Hb2; injection Hb2 as <-.
  rewrite Hvel.
  destruct (negb go && impulse_applied inp b); [apply vel_ok_jump | ].
  destruct fl; [now apply vel_ok_gravity | exact Hv].
Qed.

(** An update moves the bird only vertically, and only in the falling
    block. *)
Lemma Bird_update_rect (fl go : bool) (inp : Frame) (b b' : Bird) :
  Bird_update fl go inp b = Some b' ->
  Rect.x (rect b') = Rect.x (rect b) /\
  Rect.w (rect b') = Rect.w (rect b) /\
  Rect.h (rect b') = Rect.h (rect b) /\
  (fl = false -> rect b' = rect b).
Proof.
  unfold Bird_update.
  assert (Hfall : forall b1, (if fl then Bird_fall b else Some b) = Some b1 ->
             Rect.x (rect b1) = Rect.x (rect b) /\
             Rect.w (rect b1) = Rect.w (rect b) /\
             Rect.h (rect b1) = Rect.h (rect b) /\
             (fl = false -> rect b1 = rect b)).
  { intros b1. destruct fl.
    - unfold Bird_fall.
      destruct (Rect.bottom (rect b) <? ground_level).
      + destruct (int_of_float _); cbn [bind]; [ | discriminate].
        intros H; injection H as <-. cbn. repeat split; discriminate.
      + intros H; injection H as <-. cbn. repeat split; discriminate.
    - intros H; injection H as <-. now repeat split. }
  destruct (if fl then Bird_fall b else Some b) as [b1 | ]; cbn [bind];
    [ | discriminate].
  specialize (Hfall b1 eq_refl).
  assert (Hja : rect (Bird_animate (Bird_jump inp b1)) = rect b1).
  { unfold Bird_animate, Bird_jump.
    destruct (impulse_applied inp b1), (jump_released inp);
      match goal with |- context [?c >? 5] => destruct (c >? 5) end;
      reflexivity. }
  destruct (negb go); intros H; injection H as <-; [rewrite Hja | ]; exact Hfall.
Qed.

(** ** What each block of the loop leaves alone *)

(** Splits on every condition the goal tests. *)
Ltac split_ifs :=
  repeat match goal with
         | |- context [if ?c then _ else _] => destruct c; cbn
         end.

(** A block that is a tree of conditions over assignments: after a case
    split on every condition, the two sides are the same record. *)
Ltac frame_by_cases :=
  cbn; split_ifs; reflexivity.

Lemma handle_event_frame {A : Type} (proj : Game -> A) (inp : Frame) :
  (forall g v, proj (set_run g v) = proj g) ->
  (forall g v, proj (set_flying g v) = proj g) ->
  (forall g v, proj (set_game_started g v) = proj g) ->
  (forall g v, proj (set_game_paused g v) = proj g) ->
  forall g e, proj (handle_event inp g e) = proj g.
Proof.
  intros Hr Hf Hs Hp g e.
  destruct e as [ | | [ | | | ] | ]; unfold handle_event;
    repeat match goal with
           | |- context [if ?c then _ else _] => destruct c
           end;
    rewrite ?Hs, ?Hr, ?Hf, ?Hp; reflexivity.
Qed.

Lemma handle_events_frame {A : Type} (proj : Game -> A) (inp : Frame) :
  (forall g e, proj (handle_event inp g e) = proj g) ->
  forall g, proj (handle_events inp g) = proj g.
Proof.
  intros H g. unfold handle_events.
  revert g; induction (events inp) as [ | e es IH]; intros g; cbn [fold_left];
    [reflexivity | ].
  now rewrite IH, H.
Qed.

(** The events change nothing but the four flags [run], [flying],
    [game_started] and [game_paused]. *)
Lemma handle_events_keeps {A : Type} (proj : Game -> A) (inp : Frame) :
  (forall g v, proj (set_run g v) = proj g) ->
  (forall g v, proj (set_flying g v) = proj g) ->
  (forall g v, proj (set_game_started g v) = proj g) ->
  (forall g v, proj (set_game_paused g v) = proj g) ->
  forall g, proj (handle_events inp g) = proj g.
Proof.
  intros Hr Hf Hs Hp. apply handle_events_frame.
  now apply handle_event_frame.
Qed.

Lemma draw_hud_flappy (g : Game) : flappy (draw_hud g) = flappy g.
Proof. unfold draw_hud, draw_score. frame_by_cases. Qed.

Lemma check_score_flappy (g : Game) : flappy (check_score g) = flappy g.
Proof.
  unfold check_score, score_block.
  destruct (pipe_group g); frame_by_cases.
Qed.

Lemma spawn_and_scroll_flappy (pw ph : Z) (inp : Frame) (g : Game) :
  flappy (spawn_and_scroll pw ph inp g) = flappy g.
Proof. unfold spawn_and_scroll, spawn_pipes. frame_by_cases. Qed.

Lemma check_collisions_flappy (g : Game) : flappy (check_collisions g) = flappy g.
Proof. unfold check_collisions, end_run. frame_by_cases. Qed.

Lemma handle_events_flappy (inp : Frame) (g : Game) :
  flappy (handle_events inp g) = flappy g.
Proof. now apply handle_events_keeps. Qed.

(** The restart moves the bird; its velocity, its latch and its animation
    counters are not assigned. *)
Lemma game_over_block_bird (inp : Frame) (g : Game) :
  vel (flappy (game_over_block inp g)) = vel (flappy g) /\
  clicked (flappy (game_over_block inp g)) = clicked (flappy g) /\
  counter (flappy (game_over_block inp g)) = counter (flappy g) /\
  index (flappy (game_over_block inp g)) = index (flappy g).
Proof.
  unfold game_over_block, restart_block, draw_game_over_screen, reset_game,
    save_high_score.
  cbn. split_ifs; repeat split; reflexivity.
Qed.

(** The bird after one pass of the loop. *)
Lemma main_loop_bird (pw ph : Z) (inp : Frame) (g g' : Game) :
  main_loop pw ph inp g = Some g' ->
  exists b,
    (if game_started g && negb (game_paused g)
     then Bird_update (flying g) (game_over g) inp (flappy g)
     else Some (flappy g)) = Some b /\
    vel (flappy g') = vel b /\ clicked (flappy g') = clicked b.
Proof.
  unfold main_loop, update_birds.
  destruct (game_started g && negb (game_paused g)).
  - destruct (Bird_update _ _ _ _) as [b | ]; cbn [bind]; [ | discriminate].
    intros H; injection H as <-. exists b. split; [reflexivity | ].
    rewrite handle_events_flappy.
    destruct (game_over_block_bird inp
                (check_collisions (spawn_and_scroll pw ph inp
                   (check_score (draw_hud (set_flappy g b)))))) as (-> & -> & _).
    now rewrite check_collisions_flappy, spawn_and_scroll_flappy,
      check_score_flappy, draw_hud_flappy.
  - cbn [bind]. intros H; injection H as <-. exists (flappy g).
    split; [reflexivity | ].
    rewrite handle_events_flappy.
    destruct (game_over_block_bird inp
                (check_collisions (spawn_and_scroll pw ph inp
                   (check_score (draw_hud g))))) as (-> & -> & _).
    now rewrite check_collisions_flappy, spawn_and_scroll_flappy,
      check_score_flappy, draw_hud_flappy.
Qed.

Lemma reachable_vel_ok (bw bh pw ph : Z) (file : option Z) (g : Game) :
  reachable bw bh pw ph file g -> vel_ok (vel (flappy g)).
Proof.
  induction 1 as [t0 | g inp g' _ IH _ Hstep].
  - apply vel_ok_init.
  - destruct (main_loop_bird _ _ _ _ _ Hstep) as (b & Hb & -> & _).
    destruct (game_started g && negb (game_paused g)).
    + exact (Bird_update_vel_ok _ _ _ _ _ IH Hb).
    + now injection Hb as <-.
Qed.

(** ** The vertical step of the bird *)

(** C2 (as amended): on a flying pass with the bird's bottom edge above the
    ground, [Bird.update] adds [int(velocity)] to [y], the velocity being the
    one after gravity and the clamp.  [int] truncates toward zero: the
    increment is the floor of the velocity when that floor is not negative or
    the velocity is a whole number, and the floor plus one otherwise. *)
Theorem C2_fall_truncates (go : bool) (inp : Frame) (b : Bird) (dy : Z) :
  Rect.bottom (rect b) < ground_level ->
  int_of_float (apply_gravity (vel b)) = Some dy ->
  (exists b',
      Bird_update true go inp b = Some b' /\
      Rect.y (rect b') = Rect.y (rect b) + dy) /\
  (exists fl,
      floor_of_float (apply_gravity (vel b)) = Some fl /\
      dy = if (0 <=? fl) || float_is_integer (apply_gravity (vel b))
           then fl else fl + 1).
Proof.
  intros Hground Hint. split; [ | now apply int_vs_floor].
  unfold Bird_update, Bird_fall.
  apply Z.ltb_lt in Hground. rewrite Hground, Hint. cbn [bind].
  destruct go; cbn [negb].
  - eexists; split; reflexivity.
  - eexists; split; [reflexivity | ].
    unfold Bird_animate, Bird_jump.
    destruct (impulse_applied inp _), (jump_released inp);
      match goal with |- context [?c >? 5] => destruct (c >? 5) end;
      reflexivity.
Qed.

Lemma C2_fall_truncates_witness :
  (exists b',
      Bird_update true false (idle_frame 0) bird_after_jump = Some b' /\
      Rect.y (rect b') = Rect.y (rect bird_after_jump) + (-6)) /\
  (exists fl,
      floor_of_float (apply_gravity (vel bird_after_jump)) = Some fl /\
      -6 = if (0 <=? fl) || float_is_integer (apply_gravity (vel bird_after_jump))
           then fl else fl + 1).
Proof.
  apply (C2_fall_truncates false (idle_frame 0) bird_after_jump (-6)).
  - vm_compute. reflexivity.
  - vm_compute. reflexivity.
Defined.

(** C2 fails as stated: one pass after a jump the velocity is -6.7 (to the
    precision of a float), whose floor is -7, and the bird moves by -6. *)
Lemma C2_counterexample :
  Rect.bottom (rect bird_after_jump) < ground_level /\
  floor_of_float (apply_gravity (vel bird_after_jump)) = Some (-7) /\
  exists b',
    Bird_update true false (idle_frame 0) bird_after_jump = Some b' /\
    Rect.y (rect b') = Rect.y (rect bird_after_jump) + (-6) /\
    Rect.y (rect b') <> Rect.y (rect bird_after_jump) + (-7).
Proof.
  split; [vm_compute; reflexivity | ].
  split; [vm_compute; reflexivity | ].
  eexists. split; [vm_compute; reflexivity | ].
  split; [vm_compute; reflexivity | ].
  vm_compute. discriminate.
Qed.

(** ** Runs of [Bird.update] *)

(** A run without an impulse: only gravity acts on the velocity, once per
    flying pass. *)
Lemma Bird_updates_no_impulse (go : bool) (steps : list (bool * Frame)) (b : Bird) :
  vel_ok (vel b) ->
  Forall (fun s => negb go && impulse_applied (snd s) b = false) steps ->
  Forall (fun s => go = false -> jump_pressed (snd s) = clicked b) steps ->
  exists b',
    Bird_updates go steps b = Some b' /\
    vel b' = iter (length (filter fst steps)) apply_gravity (vel b) /\
    clicked b' = clicked b /\
    impulse_trace go steps b = repeat false (length steps).
Proof.
  revert b; induction steps as [ | [fl inp] steps IH]; intros b Hv Hno Hcl.
  - exists b. now repeat split.
  - inversion Hno as [ | ? ? Hno1 Hno']; subst.
    inversion Hcl as [ | ? ? Hcl1 Hcl']; subst.
    cbn [snd] in Hno1, Hcl1.
    destruct (Bird_update_ok fl go inp b Hv) as (b1 & Hb1 & Hvel & Hclk).
    rewrite Hno1 in Hvel.
    assert (Hsame : clicked b1 = clicked b).
    { rewrite Hclk. destruct go; [reflexivity | now apply Hcl1]. }
    assert (Himp : forall s : bool * Frame,
               impulse_applied (snd s) b1 = impulse_applied (snd s) b).
    { intros s. unfold impulse_applied. now rewrite Hsame. }
    destruct (IH b1) as (b' & Hb' & Hvel' & Hclk' & Htr).
    + rewrite Hvel. destruct fl; [now apply vel_ok_gravity | exact Hv].
    + eapply Forall_impl; [ | exact Hno']. intros s Hs. now rewrite Himp.
    + eapply Forall_impl; [ | exact Hcl']. intros s Hs Hgo. rewrite Hsame. now apply Hs.
    + exists b'. cbn [Bird_updates impulse_trace]. rewrite Hb1. cbn [bind].
      split; [exact Hb' | ].
      split; [ | split; [congruence | ] ].
      * rewrite Hvel', Hvel. cbn [filter fst].
        destruct fl; cbn [length iter]; reflexivity.
      * rewrite Hno1, Htr. reflexivity.
Qed.

(** C6: from any state of the game, after any number of consecutive flying
    passes without jump input, [Bird.update] has applied gravity that many
    times and the velocity is at most 5. *)
Theorem C6_velocity_clamped (bw bh pw ph : Z) (file : option Z) (g : Game)
    (go : bool) (inps : list Frame) :
  reachable bw bh pw ph file g ->
  Forall (fun inp => jump_pressed inp = false) inps ->
  exists b',
    Bird_updates go (map (pair true) inps) (flappy g) = Some b' /\
    vel b' = iter (length inps) apply_gravity (vel (flappy g)) /\
    (vel b' <=? 5)%float = true.
Proof.
  intros Hreach Hno.
  pose proof (reachable_vel_ok _ _ _ _ _ _ Hreach) as Hv.
  revert Hv. generalize (flappy g) as b. clear Hreach g.
  induction Hno as [ | inp inps Hinp _ IH]; intros b Hv.
  - exists b. repeat split. now apply vel_ok_le_5.
  - destruct (Bird_update_ok true go inp b Hv) as (b1 & Hb1 & Hvel & _).
    assert (Himp : negb go && impulse_applied inp b = false).
    { unfold impulse_applied. rewrite Hinp. now destruct go. }
    rewrite Himp in Hvel.
    destruct (IH b1) as (b' & Hb' & Hvel' & Hle).
    + rewrite Hvel. now apply vel_ok_gravity.
    + exists b'. cbn [map Bird_updates]. rewrite Hb1. cbn [bind].
      repeat split; [exact Hb' | | exact Hle].
      rewrite Hvel', Hvel. reflexivity.
Qed.

Lemma C6_velocity_clamped_witness :
  exists b',
    Bird_updates false (map (pair true) [idle_frame 17; idle_frame 34; idle_frame 51])
      (flappy (initial_game 51 36 None 0)) = Some b' /\
    vel b' = iter 3 apply_gravity (vel (flappy (initial_game 51 36 None 0))) /\
    (vel b' <=? 5)%float = true.
Proof.
  apply (C6_velocity_clamped 51 36 78 560 None (initial_game 51 36 None 0) false
           [idle_frame 17; idle_frame 34; idle_frame 51]).
  - apply reach_init.
  - repeat constructor.
Defined.

(** C7: while the game is not over, a run of updates during which the jump
    input is held down, starting with the latch open, applies the impulse on
    its first pass (the velocity becomes -7 and the latch closes) and on no
    later pass: afterwards only gravity acts on the velocity.  A pass with
    the input fully released opens the latch without an impulse, after which
    a press triggers the impulse again.  The velocity of [b] is one the game
    can produce ([vel_ok]). *)
Theorem C7_jump_latch (fl : bool) (inp : Frame) (rest : list (bool * Frame))
    (b : Bird) :
  vel_ok (vel b) ->
  clicked b = false ->
  jump_pressed inp = true ->
  Forall (fun s => jump_pressed (snd s) = true) rest ->
  (exists b1,
      Bird_update fl false inp b = Some b1 /\
      vel b1 = (-7)%float /\ clicked b1 = true) /\
  exists b',
    Bird_updates false ((fl, inp) :: rest) b = Some b' /\
    impulse_trace false ((fl, inp) :: rest) b = true :: repeat false (length rest) /\
    vel b' = iter (length (filter fst rest)) apply_gravity (-7)%float /\
    clicked b' = true /\
    forall fl' inp',
      jump_released inp' = true ->
      exists b'',
        Bird_update fl' false inp' b' = Some b'' /\
        impulse_applied inp' b' = false /\
        clicked b'' = false /\
        forall inp'', impulse_applied inp'' b'' = jump_pressed inp''.
Proof.
  intros Hv Hopen Hpress Hheld.
  destruct (Bird_update_ok fl false inp b Hv) as (b1 & Hb1 & Hvel1 & Hclk1).
  assert (Himp : impulse_applied inp b = true).
  { unfold impulse_applied. now rewrite Hpress, Hopen. }
  rewrite Himp in Hvel1. cbn [negb andb] in Hvel1. rewrite Hpress in Hclk1.
  split; [now exists b1 | ].
  destruct (Bird_updates_no_impulse false rest b1) as (b' & Hb' & Hvel' & Hclk' & Htr).
  - rewrite Hvel1. apply vel_ok_jump.
  - eapply Forall_impl; [ | exact Hheld]. intros s Hs.
    unfold impulse_applied. rewrite Hclk1. cbn [negb andb]. now rewrite Bool.andb_false_r.
  - eapply Forall_impl; [ | exact Hheld]. intros s Hs _. now rewrite Hclk1.
  - exists b'. cbn [Bird_updates impulse_trace]. rewrite Hb1. cbn [bind negb andb].
    rewrite Himp, Htr, Hvel', Hvel1, Hclk', Hclk1.
    repeat split; [exact Hb' | ].
    intros fl' inp' Hrel.
    assert (Hv' : vel_ok (vel b')).
    { rewrite Hvel', Hvel1. exists (length (filter fst rest)). now right. }
    destruct (Bird_update_ok fl' false inp' b' Hv') as (b'' & Hb'' & _ & Hclk'').
    rewrite jump_released_pressed in Hrel. apply Bool.negb_true_iff in Hrel.
    exists b''. unfold impulse_applied.
    rewrite Hclk'', Hrel, Hclk', Hclk1.
    repeat split; [exact Hb'' | ].
    intros inp''. cbn [negb]. apply Bool.andb_true_r.
Qed.

Lemma C7_jump_latch_witness :
  (exists b1,
      Bird_update true false (space_held 17) (Bird_init 51 36 100 350) = Some b1 /\
      vel b1 = (-7)%float /\ clicked b1 = true) /\
  exists b',
    Bird_updates false
      ((true, space_held 17) :: [(true, space_held 34); (true, space_held 51)])
      (Bird_init 51 36 100 350) = Some b' /\
    impulse_trace false
      ((true, space_held 17) :: [(true, space_held 34); (true, space_held 51)])
      (Bird_init 51 36 100 350) = true :: repeat false 2 /\
    vel b' = iter 2 apply_gravity (-7)%float /\
    clicked b' = true /\
    forall fl' inp',
      jump_released inp' = true ->
      exists b'',
        Bird_update fl' false inp' b' = Some b'' /\
        impulse_applied inp' b' = false /\
        clicked b'' = false /\
        forall inp'', impulse_applied inp'' b'' = jump_pressed inp''.
Proof.
  apply (C7_jump_latch true (space_held 17)
           [(true, space_held 34); (true, space_held 51)] (Bird_init 51 36 100 350)).
  - apply vel_ok_init.
  - reflexivity.
  - reflexivity.
  - repeat constructor.
Defined.

(** ** The score, the high score and the score file *)

(** Splits on every condition of the goal, keeping what was learnt as an
    order between integers. *)
Ltac split_ifs_lia :=
  repeat match goal with
         | |- context [if ?c then _ else _] => destruct c eqn:?; cbn
         end;
  cbn in *;
  repeat match goal with
         | H : (_ >? _) = true |- _ => apply Z.gtb_lt in H
         | H : (_ >? _) = false |- _ => rewrite Z.gtb_ltb in H; apply Z.ltb_ge in H
         end.

Lemma update_birds_frame (inp : Frame) (g g1 : Game) :
  update_birds inp g = Some g1 -> g1 = set_flappy g (flappy g1).
Proof.
  unfold update_birds.
  destruct (game_started g && negb (game_paused g)).
  - destruct (Bird_update _ _ _ _) as [b | ]; cbn [bind]; [ | discriminate].
    intros H; injection H as <-. reflexivity.
  - intros H; injection H as <-. now destruct g.
Qed.

Lemma draw_hud_scores (g : Game) :
  score (draw_hud g) = score g /\
  high_score (draw_hud g) = high_score g /\
  high_score_file (draw_hud g) = high_score_file g.
Proof. unfold draw_hud, draw_score. cbn. split_ifs; now repeat split. Qed.

(** The scoring block adds at most one to the score, never lowers the
    high score, and raises the high score to the score when it adds. *)
Lemma score_block_scores (b r : Rect.t) (g : Game) :
  score g <= score (score_block b r g) <= score g + 1 /\
  high_score g <= high_score (score_block b r g) /\
  (score g <= high_score g ->
   score (score_block b r g) <= high_score (score_block b r g)) /\
  high_score_file (score_block b r g) = high_score_file g.
Proof.
  unfold score_block. cbn. split_ifs_lia; repeat split; cbn; lia.
Qed.

Lemma check_score_scores (g : Game) :
  score g <= score (check_score g) <= score g + 1 /\
  high_score g <= high_score (check_score g) /\
  (score g <= high_score g ->
   score (check_score g) <= high_score (check_score g)) /\
  high_score_file (check_score g) = high_score_file g.
Proof.
  unfold check_score.
  destruct (pipe_group g) as [ | p ps]; [repeat split; lia | ].
  destruct (negb (game_paused g)); [apply score_block_scores | repeat split; lia].
Qed.

Lemma spawn_and_scroll_scores (pw ph : Z) (inp : Frame) (g : Game) :
  score (spawn_and_scroll pw ph inp g) = score g /\
  high_score (spawn_and_scroll pw ph inp g) = high_score g /\
  high_score_file (spawn_and_scroll pw ph inp g) = high_score_file g.
Proof. unfold spawn_and_scroll, spawn_pipes. cbn. split_ifs; now repeat split. Qed.

Lemma check_collisions_scores (g : Game) :
  score (check_collisions g) = score g /\
  high_score (check_collisions g) = high_score g /\
  high_score_file (check_collisions g) = high_score_file g.
Proof. unfold check_collisions, end_run. cbn. split_ifs; now repeat split. Qed.

(** The restart writes the file only if the score is above the high score
    in memory. *)
Lemma game_over_block_scores (inp : Frame) (g : Game) :
  high_score g <= high_score (game_over_block inp g) /\
  (0 <= score g <= high_score g ->
   0 <= score (game_over_block inp g) <= high_score (game_over_block inp g) /\
   high_score_file (game_over_block inp g) = high_score_file g).
Proof.
  unfold game_over_block, restart_block, draw_game_over_screen, reset_game,
    save_high_score.
  cbn. split_ifs_lia; repeat split; cbn; try lia; reflexivity.
Qed.

Lemma handle_events_scores (inp : Frame) (g : Game) :
  score (handle_events inp g) = score g /\
  high_score (handle_events inp g) = high_score g /\
  high_score_file (handle_events inp g) = high_score_file g.
Proof. repeat split; now apply handle_events_keeps. Qed.

(** One pass of the loop: the high score does not decrease; while the score
    is between 0 and the high score it stays so and the file is not
    written. *)
Lemma main_loop_scores (pw ph : Z) (inp : Frame) (g g' : Game) :
  main_loop pw ph inp g = Some g' ->
  high_score g <= high_score g' /\
  (0 <= score g <= high_score g ->
   0 <= score g' <= high_score g' /\
   high_score_file g' = high_score_file g).
Proof.
  unfold main_loop.
  destruct (update_birds inp g) as [g1 | ] eqn:H1; cbn [bind]; [ | discriminate].
  intros H; injection H as <-.
  apply update_birds_frame in H1.
  assert (E1 : score g1 = score g /\ high_score g1 = high_score g /\
               high_score_file g1 = high_score_file g)
    by (rewrite H1; now repeat split).
  destruct E1 as (Es1 & Eh1 & Ef1).
  destruct (draw_hud_scores g1) as (Es2 & Eh2 & Ef2).
  destruct (check_score_scores (draw_hud g1)) as (Es3 & Eh3 & Ei3 & Ef3).
  destruct (spawn_and_scroll_scores pw ph inp (check_score (draw_hud g1)))
    as (Es4 & Eh4 & Ef4).
  destruct (check_collisions_scores
              (spawn_and_scroll pw ph inp (check_score (draw_hud g1))))
    as (Es5 & Eh5 & Ef5).
  destruct (game_over_block_scores inp
              (check_collisions
                 (spawn_and_scroll pw ph inp (check_score (draw_hud g1)))))
    as (Eh6 & Ei6).
  destruct (handle_events_scores inp
              (game_over_block inp
                 (check_collisions
                    (spawn_and_scroll pw ph inp (check_score (draw_hud g1))))))
    as (Es7 & Eh7 & Ef7).
  split; [lia | ].
  intros Hinv.
  destruct Ei6 as (Hs6 & Hf6); [lia | ].
  split; [lia | congruence].
Qed.

Lemma main_loops_high_score (pw ph : Z) (inps : list Frame) (g g' : Game) :
  main_loops pw ph inps g = Some g' -> high_score g <= high_score g'.
Proof.
  revert g; induction inps as [ | inp inps IH]; intros g; cbn [main_loops].
  - intros H; injection H as <-. lia.
  - destruct (run g); [ | intros H; injection H as <-; lia].
    destruct (main_loop pw ph inp g) as [g1 | ] eqn:H1; cbn [bind]; [ | discriminate].
    intros H. apply IH in H. apply main_loop_scores in H1. lia.
Qed.

(** C10: the high score in memory starts as the stored value and never
    decreases: between any two points of a session, reached from the start
    by [inps1] and then by [inps2], it has not become smaller. *)
Theorem C10_high_score_monotone (bw bh pw ph : Z) (file : option Z) (t0 : Z)
    (inps1 inps2 : list Frame) (g1 g2 : Game) :
  main_loops pw ph inps1 (initial_game bw bh file t0) = Some g1 ->
  main_loops pw ph inps2 g1 = Some g2 ->
  high_score (initial_game bw bh file t0) = load_high_score file /\
  load_high_score file <= high_score g1 /\
  high_score g1 <= high_score g2.
Proof.
  intros H1 H2.
  apply main_loops_high_score in H1, H2.
  repeat split; [exact H1 | exact H2].
Qed.

(** When the stored score is not negative, in every state of the game the
    score is between 0 and the high score and the score file is as it was at
    the start. *)
Lemma reachable_scores (bw bh pw ph : Z) (file : option Z) (g : Game) :
  0 <= load_high_score file ->
  reachable bw bh pw ph file g ->
  0 <= score g <= high_score g /\ high_score_file g = file.
Proof.
  intros Hfile. induction 1 as [t0 | g inp g' _ IH _ Hstep].
  - cbn. split; [lia | reflexivity].
  - destruct IH as (Hinv & Hf).
    destruct (main_loop_scores _ _ _ _ _ Hstep) as (_ & Hnext).
    destruct (Hnext Hinv) as (Hinv' & Hf'). split; [exact Hinv' | congruence].
Qed.

(** A pass of the loop over a state of the game never fails. *)
Lemma main_loop_total (bw bh pw ph : Z) (file : option Z) (inp : Frame) (g : Game) :
  reachable bw bh pw ph file g -> exists g', main_loop pw ph inp g = Some g'.
Proof.
  intros Hr. apply reachable_vel_ok in Hr.
  unfold main_loop, update_birds.
  destruct (game_started g && negb (game_paused g)).
  - destruct (Bird_update_ok (flying g) (game_over g) inp (flappy g) Hr)
      as (b & -> & _).
    cbn [bind]. eexists; reflexivity.
  - cbn [bind]. eexists; reflexivity.
Qed.

(** ** Pipes *)

(** C9: when the spawner fires it appends two pipes built from the same x
    ([screen_width]) and the same gap centre; the lower one starts half a gap
    below the centre and the upper one ends half a gap above it.  [Pipe.update]
    removes a pipe exactly when its own right edge, after the move, is below
    0, and [pipe_group.update] treats every pipe by itself, whatever stands
    before or after it in the group. *)
Theorem C9_pair_integrity (pw ph : Z) (inp : Frame) (g : Game) :
  let c := half_screen_height + pipe_height inp in
  let btm := Pipe_init pw ph screen_width c (-1) in
  let top := Pipe_init pw ph screen_width c 1 in
  pipe_group (spawn_pipes pw ph inp g) =
    (if time_now inp - last_pipe g >? pipe_frequency
     then pipe_group g ++ [btm; top]
     else pipe_group g) /\
  Rect.x (pipe_rect btm) = screen_width /\
  Rect.x (pipe_rect top) = screen_width /\
  Rect.top (pipe_rect btm) = c + half_pipe_gap /\
  Rect.bottom (pipe_rect top) = c - half_pipe_gap /\
  (forall p,
      Pipe_update p =
        if Rect.right (pipe_rect p) - scroll_speed <? 0 then None
        else Some (mkPipe (Rect.set_x (pipe_rect p)
                                      (Rect.x (pipe_rect p) - scroll_speed)))) /\
  (forall ps1 p ps2,
      pipe_group_update (ps1 ++ p :: ps2) =
        pipe_group_update ps1
        ++ match Pipe_update p with Some q => [q] | None => [] end
        ++ pipe_group_update ps2).
Proof.
  cbv zeta. repeat split.
  - unfold spawn_pipes. destruct (time_now inp - last_pipe g >? pipe_frequency);
      reflexivity.
  - cbn. unfold Rect.bottom. cbn. lia.
  - intros p. unfold Pipe_update, Rect.right. cbn.
    replace (Rect.x (pipe_rect p) - scroll_speed + Rect.w (pipe_rect p))
      with (Rect.x (pipe_rect p) + Rect.w (pipe_rect p) - scroll_speed) by lia.
    reflexivity.
  - intros ps1 p ps2. unfold pipe_group_update.
    rewrite flat_map_app. reflexivity.
Qed.

(** ** Scoring a pass *)

(** One pass of the scoring block, in terms of its two tests. *)
Lemma score_block_step (b r : Rect.t) (g : Game) :
  score (score_block b r g) =
    (if (pass_pipe g || inside_span b r) && cleared b r
     then score g + 1 else score g) /\
  pass_pipe (score_block b r g) =
    (pass_pipe g || inside_span b r) && negb (cleared b r).
Proof.
  unfold score_block, inside_span, cleared.
  destruct (Rect.left b >? Rect.left r), (Rect.right b <? Rect.right r),
    (pass_pipe g) eqn:Hp, (Rect.left b >? Rect.right r);
    cbn; rewrite ?Hp; cbn; split_ifs; split; reflexivity.
Qed.

(** A bird inside the span of a pipe has not cleared it, and a bird that has
    cleared a pipe is not inside its span on a later pass. *)
Lemma inside_not_cleared (b r : Rect.t) :
  0 <= Rect.w b -> inside_span b r = true -> cleared b r = false.
Proof.
  unfold inside_span, cleared, Rect.left, Rect.right. intros Hw H.
  apply Bool.andb_true_iff in H as (_ & H). apply Z.ltb_lt in H.
  rewrite Z.gtb_ltb. apply Z.ltb_ge. lia.
Qed.

Lemma cleared_not_inside_later (b r r' : Rect.t) :
  0 <= Rect.w b -> cleared b r = true -> Rect.right r' <= Rect.right r ->
  inside_span b r' = false.
Proof.
  unfold inside_span, cleared, Rect.left, Rect.right. intros Hw H Hle.
  apply Z.gtb_lt in H.
  apply Bool.andb_false_iff. right. apply Z.ltb_ge. lia.
Qed.

(** With the flag unset and the bird never inside the span, nothing is
    scored. *)
Lemma score_run_idle (b : Rect.t) (rs : list Rect.t) (g : Game) :
  pass_pipe g = false ->
  Forall (fun r => inside_span b r = false) rs ->
  score (score_run b rs g) = score g /\ pass_pipe (score_run b rs g) = false.
Proof.
  revert g; induction rs as [ | r rs IH]; intros g Hp Hall; cbn [score_run].
  - now split.
  - inversion Hall as [ | ? ? Hr Hrs]; subst.
    destruct (score_block_step b r g) as (Hs & Hf).
    rewrite Hp, Hr in Hs, Hf. cbn in Hs, Hf.
    destruct (IH (score_block b r g) Hf Hrs) as (Hs' & Hf').
    split; congruence.
Qed.

Lemma passed_cons (flag : bool) (b r : Rect.t) (rs : list Rect.t) :
  (flag || inside_span b r) && cleared b r = false ->
  passed flag b (r :: rs) <-> passed (flag || inside_span b r) b rs.
Proof.
  intros Hno. split.
  - intros (rs1 & r0 & rs2 & Heq & Hc & Hin).
    destruct rs1 as [ | r1 rs1]; cbn [app] in Heq; injection Heq as <- ->.
    + exfalso. destruct Hin as [-> | Hin]; [ | inversion Hin].
      cbn in Hno. congruence.
    + exists rs1, r0, rs2. split; [reflexivity | ]. split; [exact Hc | ].
      destruct Hin as [-> | Hin]; [now left | ].
      inversion Hin as [? ? Hr | ? ? Hrs]; subst.
      * left. rewrite Hr. apply Bool.orb_true_r.
      * now right.
  - intros (rs1 & r0 & rs2 & -> & Hc & Hin).
    exists (r :: rs1), r0, rs2. split; [reflexivity | ]. split; [exact Hc | ].
    destruct Hin as [Hf | Hin].
    + apply Bool.orb_true_iff in Hf as [Hf | Hf]; [now left | right].
      now apply Exists_cons_hd.
    + right. now apply Exists_cons_tl.
Qed.

(** Over the passes of one pipe the score goes up by one if the bird passed
    the pipe, and stays as it is otherwise. *)
Lemma score_run_once (b : Rect.t) (rs : list Rect.t) (g : Game) :
  0 <= Rect.w b ->
  moving_left rs ->
  (passed (pass_pipe g) b rs /\ score (score_run b rs g) = score g + 1) \/
  (~ passed (pass_pipe g) b rs /\ score (score_run b rs g) = score g).
Proof.
  intros Hw. revert g; induction rs as [ | r rs IH]; intros g Hmove.
  - right. split; [ | reflexivity].
    intros (rs1 & r0 & rs2 & Heq & _). now destruct rs1.
  - destruct Hmove as (Hle & Hmove). cbn [score_run].
    destruct (score_block_step b r g) as (Hs & Hf).
    destruct ((pass_pipe g || inside_span b r) && cleared b r) eqn:Hcredit.
    + left. apply Bool.andb_true_iff in Hcredit as (Hset & Hclr).
      rewrite Hclr, Bool.andb_false_r in Hf.
      assert (Hflag : pass_pipe g = true).
      { apply Bool.orb_true_iff in Hset as [H | H]; [exact H | ].
        apply (inside_not_cleared b r Hw) in H. congruence. }
      split.
      * exists [], r, rs. repeat split; [exact Hclr | now left].
      * destruct (score_run_idle b rs (score_block b r g) Hf) as (Hs' & _).
        { eapply Forall_impl; [ | exact Hle]. intros r' Hr'. cbv beta in Hr'.
          now apply (cleared_not_inside_later b r r'). }
        lia.
    + rewrite (passed_cons _ _ _ rs Hcredit).
      assert (Hf' : pass_pipe (score_block b r g) = pass_pipe g || inside_span b r).
      { rewrite Hf. apply Bool.andb_false_iff in Hcredit as [H | H].
        - rewrite H. reflexivity.
        - rewrite H. cbn. apply Bool.andb_true_r. }
      rewrite <- Hf', <- Hs. apply IH, Hmove.
Qed.

(** On one pass the score goes up exactly when the flag is set or the bird
    is strictly inside the span, and the bird's left edge is strictly beyond
    the pipe's right edge. *)
Lemma score_block_credit (b r : Rect.t) (g : Game) :
  score (score_block b r g) = score g + 1 <->
  (pass_pipe g = true \/
   (Rect.left r < Rect.left b /\ Rect.right b < Rect.right r)) /\
  Rect.right r < Rect.left b.
Proof.
  destruct (score_block_step b r g) as (Hs & _). rewrite Hs.
  unfold inside_span, cleared.
  rewrite !Z.gtb_ltb.
  destruct (pass_pipe g), (Rect.left r <? Rect.left b) eqn:H1,
    (Rect.right b <? Rect.right r) eqn:H2,
    (Rect.right r <? Rect.left b) eqn:H3; cbn;
    rewrite ?Z.ltb_lt, ?Z.ltb_ge in *; split; intros; try lia;
    repeat split; try lia; tauto.
Qed.


(** ** The pass flag *)

Lemma span_tests_ext (b b' r : Rect.t) :
  Rect.x b' = Rect.x b -> Rect.w b' = Rect.w b ->
  inside_span b' r = inside_span b r /\ cleared b' r = cleared b r.
Proof.
  unfold inside_span, cleared, Rect.left, Rect.right. now intros -> ->.
Qed.

Lemma update_birds_pass (inp : Frame) (g g1 : Game) :
  update_birds inp g = Some g1 ->
  pass_pipe g1 = pass_pipe g /\ pipe_group g1 = pipe_group g /\
  game_paused g1 = game_paused g /\
  Rect.x (rect (flappy g1)) = Rect.x (rect (flappy g)) /\
  Rect.w (rect (flappy g1)) = Rect.w (rect (flappy g)).
Proof.
  unfold update_birds.
  destruct (game_started g && negb (game_paused g)).
  - destruct (Bird_update _ _ _ _) as [b | ] eqn:Hb; cbn [bind]; [ | discriminate].
    intros H; injection H as <-.
    destruct (Bird_update_rect _ _ _ _ _ Hb) as (Hx & Hw & _).
    now repeat split.
  - intros H; injection H as <-. now repeat split.
Qed.

Lemma draw_hud_pass (g : Game) :
  pass_pipe (draw_hud g) = pass_pipe g /\ pipe_group (draw_hud g) = pipe_group g /\
  game_paused (draw_hud g) = game_paused g.
Proof. unfold draw_hud, draw_score. cbn. split_ifs; now repeat split. Qed.

Lemma spawn_and_scroll_pass (pw ph : Z) (inp : Frame) (g : Game) :
  pass_pipe (spawn_and_scroll pw ph inp g) = pass_pipe g.
Proof. unfold spawn_and_scroll, spawn_pipes. frame_by_cases. Qed.

Lemma check_collisions_pass (g : Game) :
  pass_pipe (check_collisions g) = pass_pipe g.
Proof. unfold check_collisions, end_run. frame_by_cases. Qed.

(** Neither the restart nor [reset_game] assigns the flag. *)
Lemma game_over_block_pass (inp : Frame) (g : Game) :
  pass_pipe (game_over_block inp g) = pass_pipe g.
Proof.
  unfold game_over_block, restart_block, draw_game_over_screen, reset_game,
    save_high_score.
  frame_by_cases.
Qed.

(** C5 (as amended): the pass flag is assigned by the scoring block only,
    which runs when the game is not paused and there is a pipe.  It then
    becomes true, or stays true, when the bird is strictly inside the span of
    the first pipe, and becomes false exactly when the pass is credited (it
    was true and the bird has cleared the pipe).  With no pipe it keeps its
    value, and [reset_game], which empties the group, leaves it as it is. *)
Theorem C5_pass_flag (pw ph : Z) (inp : Frame) (g g' : Game) :
  main_loop pw ph inp g = Some g' ->
  pass_pipe g' =
    match pipe_group g with
    | [] => pass_pipe g
    | p :: _ =>
        if game_paused g then pass_pipe g
        else (pass_pipe g || inside_span (rect (flappy g)) (pipe_rect p))
             && negb (cleared (rect (flappy g)) (pipe_rect p))
    end /\
  pass_pipe (fst (reset_game g)) = pass_pipe g /\
  pipe_group (fst (reset_game g)) = [].
Proof.
  intros Hloop. split; [ | split; reflexivity].
  unfold main_loop in Hloop.
  destruct (update_birds inp g) as [g1 | ] eqn:H1; cbn [bind] in Hloop;
    [ | discriminate].
  injection Hloop as <-.
  destruct (update_birds_pass _ _ _ H1) as (Hp1 & Hg1 & Hpa1 & Hx & Hw).
  destruct (draw_hud_pass g1) as (Hp2 & Hg2 & Hpa2).
  transitivity (pass_pipe (check_score (draw_hud g1))).
  { transitivity (pass_pipe (game_over_block inp
        (check_collisions (spawn_and_scroll pw ph inp (check_score (draw_hud g1)))))).
    - now apply handle_events_keeps.
    - now rewrite game_over_block_pass, check_collisions_pass, spawn_and_scroll_pass. }
  unfold check_score. rewrite Hg2, Hg1, Hpa2, Hpa1.
  destruct (pipe_group g) as [ | p ps]; [congruence | ].
  destruct (game_paused g); cbn [negb]; [congruence | ].
  destruct (score_block_step (rect (flappy (draw_hud g1))) (pipe_rect p) (draw_hud g1))
    as (_ & ->).
  rewrite draw_hud_flappy, Hp2, Hp1.
  destruct (span_tests_ext (rect (flappy g)) (rect (flappy g1)) (pipe_rect p) Hx Hw)
    as (-> & ->).
  reflexivity.
Qed.

(** Pass 144 of the session [crash_in_pipe]: the bird comes to be inside
    the span of the first pipe and the flag is set. *)
Lemma C5_pass_flag_witness :
  pass_pipe entered_game =
    match pipe_group entering_game with
    | [] => pass_pipe entering_game
    | p :: _ =>
        if game_paused entering_game then pass_pipe entering_game
        else (pass_pipe entering_game
              || inside_span (rect (flappy entering_game)) (pipe_rect p))
             && negb (cleared (rect (flappy entering_game)) (pipe_rect p))
    end /\
  pass_pipe (fst (reset_game entering_game)) = pass_pipe entering_game /\
  pipe_group (fst (reset_game entering_game)) = [].
Proof.
  apply (C5_pass_flag 78 560 (tap_frame crash_in_pipe 144) entering_game
           entered_game).
  vm_compute. reflexivity.
Defined.

(** The session [crash_in_pipe]: the bird enters the first pair of pipes,
    which sets the pass flag, hits the upper pipe, and the game is restarted
    26 passes later.  C5 fails as stated: after the restart there is no pipe
    and the flag is still set. *)
Lemma C5_counterexample :
  exists g,
    main_loops 78 560 (play crash_in_pipe 181) (initial_game 51 36 None 0) = Some g /\
    game_over g = false /\
    pipe_group g = [] /\
    pass_pipe g = true.
Proof.
  eexists. split; [vm_compute; reflexivity | ].
  repeat split.
Qed.

(** ** Sessions *)

(** The states a session goes through are states of the game. *)
Lemma main_loops_reachable (bw bh pw ph : Z) (file : option Z)
    (inps : list Frame) (g g' : Game) :
  reachable bw bh pw ph file g ->
  main_loops pw ph inps g = Some g' ->
  reachable bw bh pw ph file g'.
Proof.
  revert g; induction inps as [ | inp inps IH]; intros g Hr Hloops;
    cbn [main_loops] in Hloops.
  - now injection Hloops as <-.
  - destruct (run g) eqn:Hrun; [ | now injection Hloops as <-].
    destruct (main_loop pw ph inp g) as [g1 | ] eqn:H1; cbn [bind] in Hloops;
      [ | discriminate].
    apply (IH g1); [ | exact Hloops].
    now apply (reach_step _ _ _ _ _ g inp).
Qed.

(** ** The pause *)

Lemma pause_inv_ext (g g' : Game) :
  game_paused g' = game_paused g ->
  game_started g' = game_started g ->
  game_over g' = game_over g ->
  pause_inv g -> pause_inv g'.
Proof. unfold pause_inv. now intros -> -> ->. Qed.

(** Names the fields of a game and shows the flags among them. *)
Ltac flags g :=
  destruct g as [r gs fl go st pa lp sc pp fc sb hs b ps f];
  unfold pause_inv; cbn.

Lemma draw_hud_flags (g : Game) :
  game_paused (draw_hud g) = game_paused g /\
  game_started (draw_hud g) = game_started g /\
  game_over (draw_hud g) = game_over g.
Proof. unfold draw_hud, draw_score. cbn. split_ifs; now repeat split. Qed.

Lemma check_score_flags (g : Game) :
  game_paused (check_score g) = game_paused g /\
  game_started (check_score g) = game_started g /\
  game_over (check_score g) = game_over g.
Proof.
  unfold check_score, score_block. destruct (pipe_group g); cbn;
    split_ifs; now repeat split.
Qed.

Lemma spawn_and_scroll_flags (pw ph : Z) (inp : Frame) (g : Game) :
  game_paused (spawn_and_scroll pw ph inp g) = game_paused g /\
  game_started (spawn_and_scroll pw ph inp g) = game_started g /\
  game_over (spawn_and_scroll pw ph inp g) = game_over g.
Proof. unfold spawn_and_scroll, spawn_pipes. cbn. split_ifs; now repeat split. Qed.

(** A collision ends the run only when the game is not paused. *)
Lemma check_collisions_inv (g : Game) : pause_inv g -> pause_inv (check_collisions g).
Proof.
  unfold check_collisions, end_run. flags g.
  destruct st, pa; cbn; split_ifs; intros H; try exact H; discriminate.
Qed.

Lemma game_over_block_inv (inp : Frame) (g : Game) :
  pause_inv g -> pause_inv (game_over_block inp g).
Proof.
  unfold game_over_block, restart_block, draw_game_over_screen, reset_game,
    save_high_score.
  flags g.
  destruct go, pa; cbn; split_ifs; intros H; try exact H; try discriminate;
    intros Hp; destruct (H Hp); discriminate.
Qed.

(** The events pause a game only when it is started and not over. *)
Lemma handle_event_inv (inp : Frame) (g : Game) (e : Event) :
  pause_inv g -> pause_inv (handle_event inp g e).
Proof.
  flags g.
  destruct e as [ | | [ | | | ] | ], go, st, pa; cbn; split_ifs;
    intros H; try exact H; try discriminate; try (now split);
    intros Hp; try discriminate; try (destruct (H Hp); discriminate); now split.
Qed.

Lemma handle_events_inv (inp : Frame) (g : Game) :
  pause_inv g -> pause_inv (handle_events inp g).
Proof.
  unfold handle_events.
  revert g; induction (events inp) as [ | e es IH]; intros g Hg; cbn [fold_left];
    [exact Hg | ].
  apply IH. now apply handle_event_inv.
Qed.

Lemma main_loop_pause_inv (pw ph : Z) (inp : Frame) (g g' : Game) :
  main_loop pw ph inp g = Some g' -> pause_inv g -> pause_inv g'.
Proof.
  unfold main_loop.
  destruct (update_birds inp g) as [g1 | ] eqn:H1; cbn [bind]; [ | discriminate].
  intros H Hg; injection H as <-.
  apply update_birds_frame in H1.
  apply handle_events_inv, game_over_block_inv, check_collisions_inv.
  destruct (spawn_and_scroll_flags pw ph inp (check_score (draw_hud g1)))
    as (Ep3 & Es3 & Eo3).
  destruct (check_score_flags (draw_hud g1)) as (Ep2 & Es2 & Eo2).
  destruct (draw_hud_flags g1) as (Ep1 & Es1 & Eo1).
  apply (pause_inv_ext g); [ | | | exact Hg].
  - rewrite Ep3, Ep2, Ep1, H1. reflexivity.
  - rewrite Es3, Es2, Es1, H1. reflexivity.
  - rewrite Eo3, Eo2, Eo1, H1. reflexivity.
Qed.

(** In every state of the game, a paused game is started and not over. *)
Lemma reachable_paused (bw bh pw ph : Z) (file : option Z) (g : Game) :
  reachable bw bh pw ph file g -> pause_inv g.
Proof.
  induction 1 as [t0 | g inp g' _ IH _ Hstep].
  - intros H. discriminate.
  - exact (main_loop_pause_inv _ _ _ _ _ Hstep IH).
Qed.

Lemma handle_event_no_toggle (inp : Frame) (g : Game) (e : Event) :
  game_paused g = true -> game_started g = true -> game_over g = false ->
  toggle_input inp e = false ->
  handle_event inp g e = set_run g (run (handle_event inp g e)).
Proof.
  intros Hp Hs Ho Ht. destruct g. cbn in Hp, Hs, Ho. subst.
  destruct e as [ | | [ | | | ] | ]; cbn in Ht |- *;
    try discriminate; try reflexivity.
  rewrite Ht. reflexivity.
Qed.

Lemma handle_events_no_toggle (inp : Frame) (es : list Event) (g : Game) :
  game_paused g = true -> game_started g = true -> game_over g = false ->
  forallb (fun e => negb (toggle_input inp e)) es = true ->
  fold_left (handle_event inp) es g =
    set_run g (run (fold_left (handle_event inp) es g)).
Proof.
  revert g; induction es as [ | e es IH]; intros g Hp Hs Ho Hall.
  - now destruct g.
  - cbn [forallb] in Hall. apply Bool.andb_true_iff in Hall as (He & Hall).
    apply Bool.negb_true_iff in He.
    cbn [fold_left].
    pose proof (handle_event_no_toggle inp g e Hp Hs Ho He) as Hstep.
    rewrite Hstep. rewrite IH; try assumption. reflexivity.
Qed.

(** One pass over a paused game. *)
Lemma paused_pass (pw ph : Z) (inp : Frame) (g : Game) :
  game_paused g = true -> game_started g = true -> game_over g = false ->
  exists g',
    main_loop pw ph inp g = Some g' /\
    flappy g' = flappy g /\
    pipe_group g' = pipe_group g /\
    score g' = score g /\
    (no_toggle inp = true -> g' = set_run (draw_score g) (run g')).
Proof.
  intros Hp Hs Ho.
  assert (Hloop : main_loop pw ph inp g = Some (handle_events inp (draw_score g))).
  { destruct g as [r gs fl go st pa lp sc pp fc sb hs b ps f].
    cbn in Hp, Hs, Ho. subst.
    unfold main_loop, update_birds, draw_hud, check_score, spawn_and_scroll,
      check_collisions, game_over_block.
    cbn. destruct ps; cbn; rewrite ?Bool.andb_false_r; reflexivity. }
  exists (handle_events inp (draw_score g)).
  split; [exact Hloop | ].
  split; [now rewrite handle_events_flappy | ].
  split; [transitivity (pipe_group (draw_score g));
          [now apply handle_events_keeps | reflexivity] | ].
  split; [transitivity (score (draw_score g));
          [now apply handle_events_keeps | reflexivity] | ].
  intros Hall. unfold handle_events.
  rewrite (handle_events_no_toggle inp (events inp) (draw_score g)) at 1;
    try assumption.
  reflexivity.
Qed.

(** Any number of passes over a paused game, none with a toggle or resume
    input: only [run] and the blink counter can differ afterwards. *)
Lemma paused_passes (pw ph : Z) (inps : list Frame) (g : Game) :
  game_paused g = true -> game_started g = true -> game_over g = false ->
  forallb no_toggle inps = true ->
  exists g',
    main_loops pw ph inps g = Some g' /\
    g' = set_run (set_score_blink g (score_blink g')) (run g').
Proof.
  revert g; induction inps as [ | inp inps IH]; intros g Hp Hs Ho Hall.
  - exists g. split; [reflexivity | now destruct g].
  - cbn [main_loops].
    destruct (run g) eqn:Hrun;
      [ | exists g; split; [reflexivity | now destruct g] ].
    cbn [forallb] in Hall. apply Bool.andb_true_iff in Hall as (H1 & Hall).
    destruct (paused_pass pw ph inp g Hp Hs Ho) as (g1 & Hg1 & _ & _ & _ & Heq).
    specialize (Heq H1).
    destruct (IH g1) as (g' & Hg' & Heq'); try (rewrite Heq; assumption);
      [exact Hall | ].
    exists g'. rewrite Hg1. cbn [bind].
    split; [exact Hg' | ].
    rewrite Heq' at 1. rewrite Heq. reflexivity.
Qed.

(** C8: in every state of the game in which the game is paused, a pass of
    the loop leaves the bird, the pipes (their positions and their number)
    and the score as they were, and the game stays paused unless an event of
    the pass is a toggle or resume input.  Over any number of passes without
    such an input the whole state stays as it was, but for [run] (a quit event
    clears it) and for the blink counter of the score display. *)
Theorem C8_paused_pass (bw bh pw ph : Z) (file : option Z) (inp : Frame)
    (inps : list Frame) (g : Game) :
  reachable bw bh pw ph file g ->
  game_paused g = true ->
  (exists g',
      main_loop pw ph inp g = Some g' /\
      flappy g' = flappy g /\
      pipe_group g' = pipe_group g /\
      score g' = score g /\
      (no_toggle inp = true -> game_paused g' = true)) /\
  (forallb no_toggle inps = true ->
   exists g',
     main_loops pw ph inps g = Some g' /\
     g' = set_run (set_score_blink g (score_blink g')) (run g')).
Proof.
  intros Hr Hp.
  destruct (reachable_paused _ _ _ _ _ _ Hr Hp) as (Hs & Ho).
  split.
  - destruct (paused_pass pw ph inp g Hp Hs Ho) as (g' & Hg' & Hb & Hps & Hsc & Heq).
    exists g'. repeat split; try assumption.
    intros Hall. rewrite (Heq Hall). exact Hp.
  - now apply paused_passes.
Qed.

Lemma paused_game_reachable : reachable 51 36 78 560 None paused_game.
Proof.
  apply (main_loops_reachable 51 36 78 560 None launch_then_pause
           (initial_game 51 36 None 0) paused_game).
  - apply reach_init.
  - vm_compute. reflexivity.
Qed.

(** The game paused by [launch_then_pause], with the space bar down but no
    event for one pass, then idle for two more. *)
Lemma C8_paused_pass_witness :
  (exists g',
      main_loop 78 560 (space_held 85) paused_game = Some g' /\
      flappy g' = flappy paused_game /\
      pipe_group g' = pipe_group paused_game /\
      score g' = score paused_game /\
      (no_toggle (space_held 85) = true -> game_paused g' = true)) /\
  (forallb no_toggle [space_held 85; idle_frame 102; idle_frame 119] = true ->
   exists g',
     main_loops 78 560 [space_held 85; idle_frame 102; idle_frame 119] paused_game
       = Some g' /\
     g' = set_run (set_score_blink paused_game (score_blink g')) (run g')).
Proof.
  apply (C8_paused_pass 51 36 78 560 None (space_held 85)
           [space_held 85; idle_frame 102; idle_frame 119] paused_game).
  - exact paused_game_reachable.
  - reflexivity.
Defined.

(** ** The sessions [score_then_fall] and [crash_in_pipe] *)

(** The session [score_then_fall] as far as its game over. *)
Lemma score_then_fall_crashes :
  main_loops 78 560 (play score_then_fall 250) (initial_game 51 36 None 0)
  = Some crashed_game.
Proof. vm_compute. reflexivity. Qed.

Lemma crashed_game_reachable : reachable 51 36 78 560 None crashed_game.
Proof.
  apply (main_loops_reachable 51 36 78 560 None (play score_then_fall 250)
           (initial_game 51 36 None 0) crashed_game).
  - apply reach_init.
  - exact score_then_fall_crashes.
Qed.

(** The restart of the session [score_then_fall], on pass 251. *)
Lemma score_then_fall_restarts :
  main_loop 78 560 (tap_frame score_then_fall 251) crashed_game
  = Some restarted_game.
Proof. vm_compute. reflexivity. Qed.

(** Two floats that compare differently with 0 are different. *)
Lemma float_neq (u v : float) :
  (u <=? 0)%float <> (v <=? 0)%float -> u <> v.
Proof. intros H ->. now apply H. Qed.

(** C3 fails as stated: the session [score_then_fall] ends on the ground
    with velocity 5; the restart, asked for with a fade counter of 29, resets
    the score, the pipes and the counter, but leaves the velocity at 5 (the
    bird is created with velocity 0) and puts the bird's rectangle at
    (100, 350), not where it was created, at (75, 332). *)
Lemma C3_counterexample :
  main_loops 78 560 (play score_then_fall 250) (initial_game 51 36 None 0)
    = Some crashed_game /\
  game_over crashed_game = true /\
  fade_counter crashed_game > 20 /\
  restart_pressed (tap_frame score_then_fall 251) = true /\
  main_loop 78 560 (tap_frame score_then_fall 251) crashed_game
    = Some restarted_game /\
  score restarted_game = 0 /\
  pipe_group restarted_game = [] /\
  fade_counter restarted_game = 0 /\
  vel (flappy restarted_game) = 5%float /\
  vel (flappy restarted_game) <> vel (Bird_init 51 36 100 half_screen_height) /\
  rect (flappy restarted_game) = Rect.mk 100 350 51 36 /\
  rect (Bird_init 51 36 100 half_screen_height) = Rect.mk 75 332 51 36.
Proof.
  split; [exact score_then_fall_crashes | ].
  split; [reflexivity | ].
  split; [cbn; lia | ].
  split; [reflexivity | ].
  split; [exact score_then_fall_restarts | ].
  repeat split.
  apply float_neq. vm_compute. discriminate.
Qed.

(** C1 does not hold of the code.  When the stored best is not negative,
    in every state of the game the score is at most the high score in
    memory, which the scoring block raises together with the score; the test
    [score > high_score] of the restart is therefore never true and
    [save_high_score] is never called: after any pass of the loop, a restart
    included, the score file holds what it held when the program started. *)
Theorem C1_score_file_never_written (bw bh pw ph : Z) (file : option Z)
    (inp : Frame) (g : Game) :
  0 <= load_high_score file ->
  reachable bw bh pw ph file g ->
  0 <= score g <= high_score g /\
  high_score_file g = file /\
  exists g', main_loop pw ph inp g = Some g' /\ high_score_file g' = file.
Proof.
  intros Hfile Hr.
  destruct (reachable_scores _ _ _ _ _ _ Hfile Hr) as (Hinv & Hf).
  split; [exact Hinv | ]. split; [exact Hf | ].
  destruct (main_loop_total _ _ _ _ _ inp _ Hr) as (g' & Hg').
  exists g'. split; [exact Hg' | ].
  destruct (main_loop_scores _ _ _ _ _ Hg') as (_ & Hnext).
  destruct (Hnext Hinv) as (_ & ->). exact Hf.
Qed.

(** The restart of [score_then_fall]: the run ended with a score of 1, above
    the stored best of 0, and the file is still missing afterwards. *)
Lemma C1_score_file_never_written_witness :
  0 <= score crashed_game <= high_score crashed_game /\
  high_score_file crashed_game = None /\
  exists g',
    main_loop 78 560 (tap_frame score_then_fall 251) crashed_game = Some g' /\
    high_score_file g' = None.
Proof.
  apply (C1_score_file_never_written 51 36 78 560 None
           (tap_frame score_then_fall 251) crashed_game).
  - vm_compute. discriminate.
  - exact crashed_game_reachable.
Defined.

(** The same restart, evaluated: the score of the run was 1, the stored best
    0; after the restart the score is 0, the high score in memory 1 and the
    file still missing. *)
Lemma restart_loses_best_score :
  main_loops 78 560 (play score_then_fall 250) (initial_game 51 36 None 0)
    = Some crashed_game /\
  game_over crashed_game = true /\
  score crashed_game = 1 /\
  load_high_score (high_score_file crashed_game) = 0 /\
  main_loop 78 560 (tap_frame score_then_fall 251) crashed_game
    = Some restarted_game /\
  game_over restarted_game = false /\
  high_score restarted_game = 1 /\
  high_score_file restarted_game = None /\
  load_high_score (high_score_file restarted_game) = 0.
Proof.
  split; [exact score_then_fall_crashes | ].
  do 3 (split; [reflexivity | ]).
  split; [exact score_then_fall_restarts | ].
  repeat split.
Qed.

Lemma C10_high_score_monotone_witness :
  high_score (initial_game 51 36 None 0) = load_high_score None /\
  load_high_score None <= high_score crashed_game /\
  high_score crashed_game <= high_score restarted_game.
Proof.
  apply (C10_high_score_monotone 51 36 78 560 None 0
           (play score_then_fall 250) [tap_frame score_then_fall 251]
           crashed_game restarted_game).
  - vm_compute. reflexivity.
  - vm_compute. reflexivity.
Defined.

(** * More properties of the loop *)

(** ** The blocks of a pass, one after the other *)

Lemma main_loop_blocks (pw ph : Z) (inp : Frame) (g g' : Game) :
  main_loop pw ph inp g = Some g' ->
  exists g1,
    update_birds inp g = Some g1 /\
    g' = handle_events inp
           (game_over_block inp
              (check_collisions
                 (spawn_and_scroll pw ph inp (check_score (draw_hud g1))))).
Proof.
  unfold main_loop.
  destruct (update_birds inp g) as [g1 | ]; cbn [bind]; [ | discriminate].
  intros H; injection H as <-. now exists g1.
Qed.

(** What a block does not assign it leaves as it was: for a field [proj] of
    the game that the assignments of the block do not change. *)
Lemma update_birds_keeps {A : Type} (proj : Game -> A) (inp : Frame) (g g1 : Game) :
  (forall g v, proj (set_flappy g v) = proj g) ->
  update_birds inp g = Some g1 -> proj g1 = proj g.
Proof.
  intros Hb H. rewrite (update_birds_frame _ _ _ H). apply Hb.
Qed.

Lemma draw_hud_keeps {A : Type} (proj : Game -> A) (g : Game) :
  (forall g v, proj (set_score_blink g v) = proj g) ->
  proj (draw_hud g) = proj g.
Proof.
  intros Hb. unfold draw_hud, draw_score.
  destruct (game_started g && negb (game_over g)); [apply Hb | reflexivity].
Qed.

Lemma check_score_keeps {A : Type} (proj : Game -> A) (g : Game) :
  (forall g v, proj (set_pass_pipe g v) = proj g) ->
  (forall g v, proj (set_score g v) = proj g) ->
  (forall g v, proj (set_high_score g v) = proj g) ->
  proj (check_score g) = proj g.
Proof.
  intros Hp Hs Hh. unfold check_score, score_block.
  destruct (pipe_group g); [reflexivity | ].
  repeat match goal with
         | |- context [if ?c then _ else _] => destruct c
         end;
    rewrite ?Hh, ?Hp, ?Hs, ?Hp; reflexivity.
Qed.

Lemma spawn_and_scroll_keeps {A : Type} (proj : Game -> A) (pw ph : Z)
    (inp : Frame) (g : Game) :
  (forall g v, proj (set_last_pipe g v) = proj g) ->
  (forall g v, proj (set_pipe_group g v) = proj g) ->
  (forall g v, proj (set_ground_scroll g v) = proj g) ->
  proj (spawn_and_scroll pw ph inp g) = proj g.
Proof.
  intros Hl Hp Hg. unfold spawn_and_scroll, spawn_pipes.
  destruct (flying g && negb (game_over g) && negb (game_paused g));
    [ | reflexivity].
  rewrite Hg, Hp.
  destruct (time_now inp - last_pipe g >? pipe_frequency); [ | reflexivity].
  now rewrite Hl, Hp.
Qed.

Lemma check_collisions_keeps {A : Type} (proj : Game -> A) (g : Game) :
  (forall g v, proj (set_game_over g v) = proj g) ->
  (forall g v, proj (set_game_started g v) = proj g) ->
  (forall g v, proj (set_flying g v) = proj g) ->
  proj (check_collisions g) = proj g.
Proof.
  intros Ho Hs Hf. unfold check_collisions, end_run.
  repeat match goal with
         | |- context [if ?c then _ else _] => destruct c
         end;
    rewrite ?Hf, ?Hs, ?Ho, ?Hf, ?Hs, ?Ho; reflexivity.
Qed.

(** The passes of the loop keep the flags consistent. *)
Lemma check_collisions_flags_ok (g : Game) :
  flags_ok g -> flags_ok (check_collisions g).
Proof.
  unfold check_collisions, end_run, flags_ok.
  destruct g as [r gs fl go st pa lp sc pp fc sb hs b ps f]. cbn.
  destruct fl, go, st, pa; cbn; split_ifs; intuition discriminate.
Qed.

Lemma game_over_block_flags_ok (inp : Frame) (g : Game) :
  flags_ok g -> flags_ok (game_over_block inp g).
Proof.
  unfold game_over_block, restart_block, draw_game_over_screen, reset_game,
    save_high_score, flags_ok.
  destruct g as [r gs fl go st pa lp sc pp fc sb hs b ps f]. cbn.
  destruct fl, go, st, pa; cbn; split_ifs; intuition discriminate.
Qed.

Lemma handle_event_flags_ok (inp : Frame) (g : Game) (e : Event) :
  flags_ok g -> flags_ok (handle_event inp g e).
Proof.
  unfold flags_ok.
  destruct g as [r gs fl go st pa lp sc pp fc sb hs b ps f]. cbn.
  destruct e as [ | | [ | | | ] | ], fl, go, st, pa; cbn; split_ifs;
    intuition discriminate.
Qed.

Lemma handle_events_flags_ok (inp : Frame) (g : Game) :
  flags_ok g -> flags_ok (handle_events inp g).
Proof.
  unfold handle_events.
  revert g; induction (events inp) as [ | e es IH]; intros g Hg; cbn [fold_left];
    [exact Hg | ].
  apply IH. now apply handle_event_flags_ok.
Qed.

Lemma flags_ok_ext (g g' : Game) :
  game_over g' = game_over g -> game_started g' = game_started g ->
  flying g' = flying g -> game_paused g' = game_paused g ->
  flags_ok g -> flags_ok g'.
Proof. unfold flags_ok. now intros -> -> -> ->. Qed.

Lemma main_loop_flags_ok (pw ph : Z) (inp : Frame) (g g' : Game) :
  main_loop pw ph inp g = Some g' -> flags_ok g -> flags_ok g'.
Proof.
  intros Hloop Hg.
  destruct (main_loop_blocks _ _ _ _ _ Hloop) as (g1 & H1 & ->).
  apply handle_events_flags_ok, game_over_block_flags_ok, check_collisions_flags_ok.
  apply (flags_ok_ext g); [ | | | | exact Hg].
  - rewrite (spawn_and_scroll_keeps game_over), (check_score_keeps game_over),
      (draw_hud_keeps game_over) by reflexivity.
    now apply (update_birds_keeps game_over inp g).
  - rewrite (spawn_and_scroll_keeps game_started), (check_score_keeps game_started),
      (draw_hud_keeps game_started) by reflexivity.
    now apply (update_birds_keeps game_started inp g).
  - rewrite (spawn_and_scroll_keeps flying), (check_score_keeps flying),
      (draw_hud_keeps flying) by reflexivity.
    now apply (update_birds_keeps flying inp g).
  - rewrite (spawn_and_scroll_keeps game_paused), (check_score_keeps game_paused),
      (draw_hud_keeps game_paused) by reflexivity.
    now apply (update_birds_keeps game_paused inp g).
Qed.

(** X1: in every state of the game the four flags fit together: a game that
    is over is neither started, flying nor paused, and a game that is flying
    or paused is started.  The loop is in one of four phases: waiting for the
    launch, started (flying or waiting after a restart, paused or not), or
    over. *)
Theorem X1_flags_consistent (bw bh pw ph : Z) (file : option Z) (g : Game) :
  reachable bw bh pw ph file g ->
  (game_over g = true ->
   game_started g = false /\ flying g = false /\ game_paused g = false) /\
  (flying g = true -> game_started g = true) /\
  (game_paused g = true -> game_started g = true).
Proof.
  induction 1 as [t0 | g inp g' _ IH _ Hstep].
  - cbn. intuition discriminate.
  - exact (main_loop_flags_ok _ _ _ _ _ Hstep IH).
Qed.

Lemma X1_flags_consistent_witness :
  (game_over crashed_game = true ->
   game_started crashed_game = false /\ flying crashed_game = false /\
   game_paused crashed_game = false) /\
  (flying crashed_game = true -> game_started crashed_game = true) /\
  (game_paused crashed_game = true -> game_started crashed_game = true).
Proof.
  apply (X1_flags_consistent 51 36 78 560 None crashed_game).
  exact crashed_game_reachable.
Defined.

(** ** The counters *)

Lemma game_over_block_fade (inp : Frame) (g : Game) :
  (game_over g = false -> fade_counter g = 0) -> 0 <= fade_counter g ->
  (game_over (game_over_block inp g) = false ->
   fade_counter (game_over_block inp g) = 0) /\
  (game_over (game_over_block inp g) = true ->
   1 <= fade_counter (game_over_block inp g)).
Proof.
  unfold game_over_block, restart_block, draw_game_over_screen, reset_game,
    save_high_score.
  destruct g as [r gs fl go st pa lp sc pp fc sb hs b ps f]. cbn.
  intros H0 Hge. destruct go; cbn; split_ifs; cbn; split; intros; try discriminate;
    try lia; auto.
Qed.

(** X2: the fade counter counts the passes since the game ended: in every
    state of the game it is 0 while the game is not over and at least 1 when
    it is over (the pass that detects the collision already counts). *)
Theorem X2_fade_counter (bw bh pw ph : Z) (file : option Z) (g : Game) :
  reachable bw bh pw ph file g ->
  (game_over g = false -> fade_counter g = 0) /\
  (game_over g = true -> 1 <= fade_counter g).
Proof.
  induction 1 as [t0 | g inp g' _ IH _ Hstep].
  - cbn. split; [reflexivity | discriminate].
  - destruct (main_loop_blocks _ _ _ _ _ Hstep) as (g1 & H1 & ->).
    rewrite (handle_events_keeps game_over), (handle_events_keeps fade_counter)
      by reflexivity.
    set (g4 := spawn_and_scroll pw ph inp (check_score (draw_hud g1))).
    assert (Ho : game_over g4 = game_over g).
    { unfold g4.
      rewrite (spawn_and_scroll_keeps game_over), (check_score_keeps game_over),
        (draw_hud_keeps game_over) by reflexivity.
      now apply (update_birds_keeps game_over inp g). }
    assert (Hf : fade_counter g4 = fade_counter g).
    { unfold g4.
      rewrite (spawn_and_scroll_keeps fade_counter),
        (check_score_keeps fade_counter), (draw_hud_keeps fade_counter)
        by reflexivity.
      now apply (update_birds_keeps fade_counter inp g). }
    assert (Hf5 : fade_counter (check_collisions g4) = fade_counter g)
      by (rewrite (check_collisions_keeps fade_counter) by reflexivity; exact Hf).
    destruct IH as (IH0 & IH1).
    apply game_over_block_fade; rewrite Hf5.
    + intros Hno. apply IH0. rewrite <- Ho.
      revert Hno. unfold check_collisions, end_run.
      destruct g4 as [r gs fl go st pa lp sc pp fc sb hs b ps f]. cbn.
      split_ifs; cbn; intros; congruence.
    + destruct (game_over g); [apply Z.le_trans with 1; [lia | now apply IH1] | ].
      rewrite IH0 by reflexivity. lia.
Qed.

Lemma X2_fade_counter_witness :
  (game_over crashed_game = false -> fade_counter crashed_game = 0) /\
  (game_over crashed_game = true -> 1 <= fade_counter crashed_game).
Proof.
  apply (X2_fade_counter 51 36 78 560 None crashed_game).
  exact crashed_game_reachable.
Defined.

Lemma spawn_pipes_ground (pw ph : Z) (inp : Frame) (g : Game) :
  ground_scroll (spawn_pipes pw ph inp g) = ground_scroll g.
Proof.
  unfold spawn_pipes.
  destruct (time_now inp - last_pipe g >? pipe_frequency); reflexivity.
Qed.

Lemma spawn_and_scroll_ground (pw ph : Z) (inp : Frame) (g : Game) :
  (exists k, 0 <= k <= 11 /\ ground_scroll g = -3 * k) ->
  exists k, 0 <= k <= 11 /\ ground_scroll (spawn_and_scroll pw ph inp g) = -3 * k.
Proof.
  intros (k & Hk & Hg). unfold spawn_and_scroll.
  destruct (flying g && negb (game_over g) && negb (game_paused g));
    [ | now exists k].
  cbn [ground_scroll set_ground_scroll set_pipe_group].
  rewrite spawn_pipes_ground, Hg. unfold scroll_speed.
  destruct (Z.abs (-3 * k - 3) >? 35) eqn:Habs.
  - exists 0. lia.
  - rewrite Z.gtb_ltb in Habs. apply Z.ltb_ge in Habs.
    exists (k + 1). lia.
Qed.

(** X3: the two counters of the display stay in their ranges in every state
    of the game: the offset of the scrolling ground is one of 0, -3, ..., -33
    and the blink counter of the score is between 0 and 59. *)
Theorem X3_display_counters (bw bh pw ph : Z) (file : option Z) (g : Game) :
  reachable bw bh pw ph file g ->
  (exists k, 0 <= k <= 11 /\ ground_scroll g = -3 * k) /\
  0 <= score_blink g < 60.
Proof.
  induction 1 as [t0 | g inp g' _ IH _ Hstep].
  - cbn. split; [exists 0; lia | lia].
  - destruct (main_loop_blocks _ _ _ _ _ Hstep) as (g1 & H1 & ->).
    destruct IH as (IHg & IHb).
    pose proof (update_birds_keeps ground_scroll inp g g1 ltac:(reflexivity) H1) as Eg.
    pose proof (update_birds_keeps score_blink inp g g1 ltac:(reflexivity) H1) as Eb.
    split.
    + rewrite (handle_events_keeps ground_scroll) by reflexivity.
      assert (Hkeep : forall g0,
                 ground_scroll (game_over_block inp (check_collisions g0))
                 = ground_scroll g0).
      { intros g0.
        transitivity (ground_scroll (check_collisions g0));
          [ | now apply check_collisions_keeps].
        unfold game_over_block, restart_block, draw_game_over_screen, reset_game,
          save_high_score.
        cbn. split_ifs; reflexivity. }
      rewrite Hkeep. apply spawn_and_scroll_ground.
      rewrite (check_score_keeps ground_scroll), (draw_hud_keeps ground_scroll)
        by reflexivity.
      now rewrite Eg.
    + rewrite (handle_events_keeps score_blink) by reflexivity.
      assert (Hkeep : forall g0,
                 score_blink (game_over_block inp (check_collisions g0))
                 = score_blink g0).
      { intros g0.
        transitivity (score_blink (check_collisions g0));
          [ | now apply check_collisions_keeps].
        unfold game_over_block, restart_block, draw_game_over_screen, reset_game,
          save_high_score.
        cbn. split_ifs; reflexivity. }
      rewrite Hkeep.
      rewrite (spawn_and_scroll_keeps score_blink), (check_score_keeps score_blink)
        by reflexivity.
      unfold draw_hud, draw_score.
      destruct (game_started g1 && negb (game_over g1)); cbn.
      * apply Z.mod_pos_bound. lia.
      * now rewrite Eb.
Qed.

Lemma X3_display_counters_witness :
  (exists k, 0 <= k <= 11 /\ ground_scroll crashed_game = -3 * k) /\
  0 <= score_blink crashed_game < 60.
Proof.
  apply (X3_display_counters 51 36 78 560 None crashed_game).
  exact crashed_game_reachable.
Defined.

(** ** The bird over a pass *)

(** The restart either leaves the bird alone or moves its rectangle to
    (100, 350). *)
Lemma game_over_block_flappy (inp : Frame) (g : Game) :
  flappy (game_over_block inp g) = flappy g \/
  flappy (game_over_block inp g) =
    mkBird (Rect.mk 100 350 (Rect.w (rect (flappy g))) (Rect.h (rect (flappy g))))
           (vel (flappy g)) (clicked (flappy g)) (counter (flappy g))
           (index (flappy g)).
Proof.
  unfold game_over_block, restart_block, draw_game_over_screen, reset_game,
    save_high_score.
  cbn. split_ifs; auto.
Qed.

(** The bird after a pass: the result of [Bird.update], if it ran, possibly
    moved by a restart. *)
Lemma main_loop_flappy (pw ph : Z) (inp : Frame) (g g' : Game) :
  main_loop pw ph inp g = Some g' ->
  exists b,
    (if game_started g && negb (game_paused g)
     then Bird_update (flying g) (game_over g) inp (flappy g)
     else Some (flappy g)) = Some b /\
    (flappy g' = b \/
     flappy g' =
       mkBird (Rect.mk 100 350 (Rect.w (rect b)) (Rect.h (rect b)))
              (vel b) (clicked b) (counter b) (index b)).
Proof.
  intros Hloop.
  destruct (main_loop_blocks _ _ _ _ _ Hloop) as (g1 & H1 & ->).
  exists (flappy g1). split.
  - revert H1. unfold update_birds.
    destruct (game_started g && negb (game_paused g)).
    + destruct (Bird_update _ _ _ _) as [b | ]; cbn [bind]; [ | discriminate].
      now intros H; injection H as <-.
    + now intros H; injection H as <-.
  - rewrite handle_events_flappy.
    set (g5 := check_collisions
                 (spawn_and_scroll pw ph inp (check_score (draw_hud g1)))).
    assert (E : flappy g5 = flappy g1).
    { unfold g5. now rewrite check_collisions_flappy, spawn_and_scroll_flappy,
        check_score_flappy, draw_hud_flappy. }
    destruct (game_over_block_flappy inp g5) as [-> | ->]; rewrite E; auto.
Qed.

Lemma Bird_update_animation (fl go : bool) (inp : Frame) (b b' : Bird) :
  Bird_update fl go inp b = Some b' ->
  0 <= index b <= 2 /\ 0 <= counter b <= 5 ->
  0 <= index b' <= 2 /\ 0 <= counter b' <= 5.
Proof.
  unfold Bird_update.
  assert (Hfall : forall b1, (if fl then Bird_fall b else Some b) = Some b1 ->
             index b1 = index b /\ counter b1 = counter b).
  { intros b1. destruct fl.
    - unfold Bird_fall. destruct (Rect.bottom (rect b) <? ground_level).
      + destruct (int_of_float _); cbn [bind]; [ | discriminate].
        now intros H; injection H as <-.
      + now intros H; injection H as <-.
    - now intros H; injection H as <-. }
  destruct (if fl then Bird_fall b else Some b) as [b1 | ]; cbn [bind];
    [ | discriminate].
  destruct (Hfall b1 eq_refl) as (Ei & Ec).
  destruct (negb go); intros H; injection H as <-; [ | lia].
  unfold Bird_animate, Bird_jump.
  destruct (impulse_applied inp b1), (jump_released inp); cbn;
    rewrite ?Ei, ?Ec;
    destruct (counter b + 1 >? 5) eqn:Hc; cbn;
    try (destruct (index b + 1 >=? 3) eqn:Hi; cbn);
    rewrite ?Z.gtb_ltb, ?Z.geb_leb, ?Z.ltb_lt, ?Z.ltb_ge, ?Z.leb_le, ?Z.leb_gt in *;
    lia.
Qed.

(** X4: in every state of the game the animation index of the bird is 0, 1
    or 2, a valid index into its three images, and the animation counter is
    between 0 and 5. *)
Theorem X4_animation_index (bw bh pw ph : Z) (file : option Z) (g : Game) :
  reachable bw bh pw ph file g ->
  0 <= index (flappy g) <= 2 /\ 0 <= counter (flappy g) <= 5.
Proof.
  induction 1 as [t0 | g inp g' _ IH _ Hstep].
  - cbn. lia.
  - destruct (main_loop_flappy _ _ _ _ _ Hstep) as (b & Hb & Hg').
    assert (Hbok : 0 <= index b <= 2 /\ 0 <= counter b <= 5).
    { destruct (game_started g && negb (game_paused g)).
      - exact (Bird_update_animation _ _ _ _ _ Hb IH).
      - now injection Hb as <-. }
    destruct Hg' as [-> | ->]; exact Hbok.
Qed.

Lemma X4_animation_index_witness :
  0 <= index (flappy crashed_game) <= 2 /\ 0 <= counter (flappy crashed_game) <= 5.
Proof.
  apply (X4_animation_index 51 36 78 560 None crashed_game).
  exact crashed_game_reachable.
Defined.

(** The bird keeps the size of its image. *)
Lemma reachable_bird_size (bw bh pw ph : Z) (file : option Z) (g : Game) :
  reachable bw bh pw ph file g ->
  Rect.w (rect (flappy g)) = bw /\ Rect.h (rect (flappy g)) = bh.
Proof.
  induction 1 as [t0 | g inp g' _ IH _ Hstep].
  - cbn. auto.
  - destruct (main_loop_flappy _ _ _ _ _ Hstep) as (b & Hb & Hg').
    assert (Hbok : Rect.w (rect b) = bw /\ Rect.h (rect b) = bh).
    { destruct (game_started g && negb (game_paused g)).
      - destruct (Bird_update_rect _ _ _ _ _ Hb) as (_ & -> & -> & _). exact IH.
      - now injection Hb as <-. }
    destruct Hg' as [-> | ->]; exact Hbok.
Qed.

(** X5: the bird keeps the size of its image and stays in one of two
    columns: in every state of the game its rectangle has the width and
    height it was created with, and its x is either the one it was created
    with (its centre at 100) or 100, where a restart puts it. *)
Theorem X5_bird_column (bw bh pw ph : Z) (file : option Z) (g : Game) :
  reachable bw bh pw ph file g ->
  Rect.w (rect (flappy g)) = bw /\
  Rect.h (rect (flappy g)) = bh /\
  (Rect.x (rect (flappy g)) = 100 - bw / 2 \/ Rect.x (rect (flappy g)) = 100).
Proof.
  induction 1 as [t0 | g inp g' _ IH _ Hstep].
  - cbn. auto.
  - destruct (main_loop_flappy _ _ _ _ _ Hstep) as (b & Hb & Hg').
    assert (Hbok : Rect.w (rect b) = bw /\ Rect.h (rect b) = bh /\
                   (Rect.x (rect b) = 100 - bw / 2 \/ Rect.x (rect b) = 100)).
    { destruct (game_started g && negb (game_paused g)).
      - destruct (Bird_update_rect _ _ _ _ _ Hb) as (-> & -> & -> & _). exact IH.
      - now injection Hb as <-. }
    destruct Hg' as [-> | ->]; [exact Hbok | ].
    cbn. destruct Hbok as (-> & -> & _). auto.
Qed.

Lemma X5_bird_column_witness :
  Rect.w (rect (flappy restarted_game)) = 51 /\
  Rect.h (rect (flappy restarted_game)) = 36 /\
  (Rect.x (rect (flappy restarted_game)) = 100 - 51 / 2 \/
   Rect.x (rect (flappy restarted_game)) = 100).
Proof.
  apply (X5_bird_column 51 36 78 560 None restarted_game).
  apply (reach_step 51 36 78 560 None crashed_game
           (tap_frame score_then_fall 251) restarted_game).
  - exact crashed_game_reachable.
  - reflexivity.
  - exact score_then_fall_restarts.
Defined.




(** The session [crash_in_pipe] as far as its pass 143. *)
Lemma entering_game_reachable : reachable 51 36 78 560 None entering_game.
Proof.
  apply (main_loops_reachable 51 36 78 560 None (play crash_in_pipe 143)
           (initial_game 51 36 None 0) entering_game).
  - apply reach_init.
  - vm_compute. reflexivity.
Qed.



(** ** The pipes over a pass *)

Lemma Pipe_update_init (pw ph a c pos : Z) :
  pos = -1 \/ pos = 1 ->
  Pipe_update (Pipe_init pw ph a c pos) =
    if a - scroll_speed + pw <? 0 then None
    else Some (Pipe_init pw ph (a - scroll_speed) c pos).
Proof.
  intros [-> | ->]; unfold Pipe_update, Pipe_init; cbn;
    unfold Rect.right; cbn; destruct (a - scroll_speed + pw <? 0); reflexivity.
Qed.

Lemma pipe_group_update_pairs (pw ph : Z) (l : list (Z * Z)) :
  pipe_group_update (pipe_pairs pw ph l) = pipe_pairs pw ph (shift_pairs pw l).
Proof.
  induction l as [ | [a c] l IH]; [reflexivity | ].
  unfold pipe_pairs, shift_pairs in *. cbn [flat_map map filter fst snd].
  unfold pipe_pair at 1. cbn [fst snd app].
  unfold pipe_group_update in *. cbn [flat_map].
  rewrite !Pipe_update_init by auto.
  rewrite IH.
  destruct (a - scroll_speed + pw <? 0); reflexivity.
Qed.

Lemma increasing_app (xs : list Z) (x : Z) :
  increasing xs -> Forall (fun y => y < x) xs -> increasing (xs ++ [x]).
Proof.
  induction xs as [ | y xs IH]; intros Hinc Hlt; cbn.
  - split; [constructor | exact I].
  - destruct Hinc as (Hy & Hinc). inversion Hlt as [ | ? ? Hyx Hlt']; subst.
    split; [ | now apply IH].
    apply Forall_app. split; [exact Hy | now repeat constructor].
Qed.

Lemma shift_pairs_ok (pw : Z) (l : list (Z * Z)) :
  increasing (map fst l) ->
  Forall (fun ac => fst ac <= screen_width) l ->
  increasing (map fst (shift_pairs pw l)) /\
  Forall (fun ac => - pw <= fst ac <= screen_width - scroll_speed)
         (shift_pairs pw l).
Proof.
  unfold shift_pairs.
  induction l as [ | [a c] l IH]; intros Hinc Hle; cbn [map filter fst snd].
  - split; [exact I | constructor].
  - destruct Hinc as (Ha & Hinc). inversion Hle as [ | ? ? Hale Hle']; subst.
    destruct (IH Hinc Hle') as (IHinc & IHall).
    assert (Hmin : Forall (fun y => a - scroll_speed < y)
                     (map fst (filter (fun ac => negb (fst ac + pw <? 0))
                                 (map (fun ac => (fst ac - scroll_speed, snd ac)) l)))).
    { clear - Ha. induction l as [ | [b d] l IHl]; cbn [map filter fst snd];
        [constructor | ].
      cbn [map fst] in Ha. inversion Ha as [ | ? ? Hab Ha']; subst.
      destruct (negb (b - scroll_speed + pw <? 0)); cbn [map fst];
        [constructor; [lia | now apply IHl] | now apply IHl]. }
    cbn [fst] in Hale.
    destruct (a - scroll_speed + pw <? 0) eqn:Hout; cbn [negb map fst].
    + now split.
    + apply Z.ltb_ge in Hout. split; [now split | ].
      constructor; [cbn [fst]; lia | exact IHall].
Qed.

(** The pipes after the spawn and scroll block, for a group of pairs. *)
Lemma spawn_and_scroll_pairs (pw ph : Z) (inp : Frame) (g : Game)
    (l : list (Z * Z)) :
  pipe_group g = pipe_pairs pw ph l ->
  increasing (map fst l) ->
  Forall (fun ac => - pw <= fst ac <= screen_width - scroll_speed) l ->
  exists l',
    pipe_group (spawn_and_scroll pw ph inp g) = pipe_pairs pw ph l' /\
    increasing (map fst l') /\
    Forall (fun ac => - pw <= fst ac <= screen_width - scroll_speed) l'.
Proof.
  intros Hg Hinc Hall. unfold spawn_and_scroll.
  destruct (flying g && negb (game_over g) && negb (game_paused g));
    [ | now exists l].
  cbn [pipe_group set_ground_scroll set_pipe_group].
  assert (Hspawn : exists l0,
             pipe_group (spawn_pipes pw ph inp g) = pipe_pairs pw ph l0 /\
             increasing (map fst l0) /\
             Forall (fun ac => fst ac <= screen_width) l0).
  { unfold spawn_pipes.
    destruct (time_now inp - last_pipe g >? pipe_frequency).
    - exists (l ++ [(screen_width, half_screen_height + pipe_height inp)]).
      cbn [pipe_group set_last_pipe set_pipe_group]. rewrite Hg.
      split; [unfold pipe_pairs; rewrite flat_map_app; reflexivity | ].
      split.
      + rewrite map_app. apply increasing_app; [exact Hinc | ].
        apply Forall_map. eapply Forall_impl; [ | exact Hall].
        intros ac Hac. cbv beta in Hac. unfold scroll_speed in Hac. cbn [fst]. lia.
      + apply Forall_app. split; [ | repeat constructor; cbn [fst]; lia].
        eapply Forall_impl; [ | exact Hall].
        intros ac Hac. cbv beta in Hac. unfold scroll_speed in Hac. lia.
    - exists l. split; [exact Hg | ]. split; [exact Hinc | ].
      eapply Forall_impl; [ | exact Hall].
      intros ac Hac. cbv beta in Hac. unfold scroll_speed in Hac. lia. }
  destruct Hspawn as (l0 & -> & Hinc0 & Hall0).
  exists (shift_pairs pw l0). split; [apply pipe_group_update_pairs | ].
  now apply shift_pairs_ok.
Qed.

(** X7: in every state of the game the pipe group is made of whole pairs, a
    lower and an upper pipe built from the same x and the same gap centre,
    in the order of their x, the leftmost first; no pair is further right
    than [screen_width - scroll_speed] and none has its right edge left of
    the screen. *)
Theorem X7_pipes_in_pairs (bw bh pw ph : Z) (file : option Z) (g : Game) :
  reachable bw bh pw ph file g ->
  exists l,
    pipe_group g = pipe_pairs pw ph l /\
    increasing (map fst l) /\
    Forall (fun ac => - pw <= fst ac <= screen_width - scroll_speed) l.
Proof.
  induction 1 as [t0 | g inp g' _ IH _ Hstep].
  - exists []. repeat split. constructor.
  - destruct (main_loop_blocks _ _ _ _ _ Hstep) as (g1 & H1 & ->).
    rewrite (handle_events_keeps pipe_group) by reflexivity.
    destruct IH as (l & Hl & Hinc & Hall).
    destruct (spawn_and_scroll_pairs pw ph inp (check_score (draw_hud g1)) l)
      as (l' & Hl' & Hinc' & Hall'); try assumption.
    { rewrite (check_score_keeps pipe_group), (draw_hud_keeps pipe_group)
        by reflexivity.
      rewrite (update_birds_keeps pipe_group inp g g1) by (reflexivity || exact H1).
      exact Hl. }
    set (g5 := check_collisions
                 (spawn_and_scroll pw ph inp (check_score (draw_hud g1)))).
    assert (E5 : pipe_group g5 = pipe_pairs pw ph l').
    { unfold g5. now rewrite (check_collisions_keeps pipe_group) by reflexivity. }
    assert (E6 : pipe_group (game_over_block inp g5) = pipe_group g5 \/
                 pipe_group (game_over_block inp g5) = []).
    { unfold game_over_block, restart_block, draw_game_over_screen, reset_game,
        save_high_score.
      cbn. split_ifs; auto. }
    destruct E6 as [-> | ->].
    + exists l'. now rewrite E5.
    + exists []. repeat split. constructor.
Qed.

Lemma X7_pipes_in_pairs_witness :
  exists l,
    pipe_group crashed_game = pipe_pairs 78 560 l /\
    increasing (map fst l) /\
    Forall (fun ac => - 78 <= fst ac <= screen_width - scroll_speed) l.
Proof.
  apply (X7_pipes_in_pairs 51 36 78 560 None crashed_game).
  exact crashed_game_reachable.
Defined.

(** ** Before the launch *)

(** A game that has been launched is from then on started or over. *)
Lemma main_loop_launched (pw ph : Z) (inp : Frame) (g g' : Game) :
  main_loop pw ph inp g = Some g' ->
  game_started g || game_over g = true ->
  game_started g' || game_over g' = true.
Proof.
  intros Hloop Hg.
  destruct (main_loop_blocks _ _ _ _ _ Hloop) as (g1 & H1 & ->).
  set (g4 := spawn_and_scroll pw ph inp (check_score (draw_hud g1))).
  assert (H4 : game_started g4 || game_over g4 = true).
  { unfold g4.
    rewrite (spawn_and_scroll_keeps game_started), (check_score_keeps game_started),
      (draw_hud_keeps game_started) by reflexivity.
    rewrite (spawn_and_scroll_keeps game_over), (check_score_keeps game_over),
      (draw_hud_keeps game_over) by reflexivity.
    rewrite (update_birds_keeps game_started inp g g1),
      (update_birds_keeps game_over inp g g1) by (reflexivity || exact H1).
    exact Hg. }
  assert (H5 : game_started (check_collisions g4)
               || game_over (check_collisions g4) = true).
  { revert H4. unfold check_collisions, end_run.
    destruct g4 as [r gs fl go st pa lp sc pp fc sb hs b ps f]. cbn.
    destruct st, go; cbn; split_ifs; auto. }
  assert (H6 : game_started (game_over_block inp (check_collisions g4))
               || game_over (game_over_block inp (check_collisions g4)) = true).
  { revert H5. generalize (check_collisions g4) as g5. intros g5.
    unfold game_over_block, restart_block, draw_game_over_screen, reset_game,
      save_high_score.
    destruct g5 as [r gs fl go st pa lp sc pp fc sb hs b ps f]. cbn.
    destruct st, go; cbn; split_ifs; auto. }
  revert H6. generalize (game_over_block inp (check_collisions g4)) as g6.
  unfold handle_events.
  induction (events inp) as [ | e es IH]; intros g6 H6; cbn [fold_left];
    [exact H6 | ].
  apply IH. revert H6.
  destruct g6 as [r gs fl go st pa lp sc pp fc sb hs b ps f]. cbn.
  destruct e as [ | | [ | | | ] | ], st, go; cbn; split_ifs; auto.
Qed.

(** A pass over a game that waits for its launch only handles the events. *)
Lemma start_pass (pw ph : Z) (inp : Frame) (g : Game) :
  game_started g = false -> game_over g = false -> flying g = false ->
  pipe_group g = [] ->
  main_loop pw ph inp g = Some (handle_events inp g).
Proof.
  destruct g as [r gs fl go st pa lp sc pp fc sb hs b ps f]. cbn.
  intros -> -> -> ->. reflexivity.
Qed.

(** The events never take back a launch. *)
Lemma handle_events_launched (inp : Frame) (es : list Event) (g : Game) :
  game_started g = true -> flying g = true ->
  game_started (fold_left (handle_event inp) es g) = true /\
  flying (fold_left (handle_event inp) es g) = true.
Proof.
  revert g; induction es as [ | e es IH]; intros g Hs Hf; cbn [fold_left];
    [now split | ].
  apply IH; revert Hs Hf;
    destruct g as [r gs fl go st pa lp sc pp fc sb hs b ps f]; cbn;
    intros -> ->;
    destruct e as [ | | [ | | | ] | ]; cbn; split_ifs; reflexivity.
Qed.

(** The events of a pass over a game that waits for its launch: a launch
    input starts the game and makes it fly; without one only [run] can
    change. *)
Lemma handle_events_start (inp : Frame) (es : list Event) (g : Game) :
  game_started g = false -> game_over g = false -> flying g = false ->
  game_paused g = false ->
  if existsb launch_input es
  then game_started (fold_left (handle_event inp) es g) = true /\
       flying (fold_left (handle_event inp) es g) = true
  else fold_left (handle_event inp) es g
       = set_run g (run (fold_left (handle_event inp) es g)).
Proof.
  revert g; induction es as [ | e es IH]; intros g Hs Ho Hf Hp;
    cbn [existsb fold_left].
  - now destruct g.
  - destruct (launch_input e) eqn:He; cbn [orb].
    + apply handle_events_launched;
        destruct g as [r gs fl go st pa lp sc pp fc sb hs b ps f];
        cbn in Hs, Ho, Hf, Hp; subst;
        destruct e as [ | | [ | | | ] | ]; try discriminate; reflexivity.
    + assert (E : handle_event inp g e = set_run g (run (handle_event inp g e))).
      { destruct g as [r gs fl go st pa lp sc pp fc sb hs b ps f];
          cbn in Hs, Ho, Hf, Hp; subst;
          destruct e as [ | | [ | | | ] | ]; try discriminate; reflexivity. }
      specialize (IH (handle_event inp g e)).
      rewrite E in IH at 1 2 3 4. cbn in IH. specialize (IH Hs Ho Hf Hp).
      destruct (existsb launch_input es); [exact IH | ].
      rewrite IH at 1. rewrite E at 1. reflexivity.
Qed.

(** Until it is launched the game is as the program set it up. *)
Lemma reachable_start (bw bh pw ph : Z) (file : option Z) (g : Game) :
  reachable bw bh pw ph file g ->
  game_started g = false -> game_over g = false ->
  exists t0, g = set_run (initial_game bw bh file t0) (run g).
Proof.
  induction 1 as [t0 | g inp g' _ IH _ Hstep]; intros Hs Ho.
  - now exists t0.
  - assert (Hg : game_started g = false /\ game_over g = false).
    { pose proof (main_loop_launched _ _ _ _ _ Hstep) as Hl.
      rewrite Hs, Ho in Hl. cbn in Hl.
      destruct (game_started g), (game_over g); cbn in Hl; auto;
        specialize (Hl eq_refl); discriminate. }
    destruct Hg as (Hsg & Hog).
    destruct (IH Hsg Hog) as (t0 & Eg).
    exists t0.
    assert (Hflags : flying g = false /\ game_paused g = false /\ pipe_group g = [])
      by (rewrite Eg; now repeat split).
    destruct Hflags as (Hfg & Hpg & Hpipes).
    rewrite (start_pass pw ph inp g Hsg Hog Hfg Hpipes) in Hstep.
    injection Hstep as <-.
    pose proof (handle_events_start inp (events inp) g Hsg Hog Hfg Hpg) as He.
    unfold handle_events in *.
    destruct (existsb launch_input (events inp)).
    + destruct He as (He & _). congruence.
    + rewrite He at 1. rewrite Eg at 1. reflexivity.
Qed.

(** X8: as long as the game is neither started nor over it is exactly as the
    program set it up, but for [run]: nothing moves and nothing is scored
    before the launch.  A pass with no launch input (mouse click, space bar
    or up arrow) among its events changes nothing but [run]; a pass with one
    starts the game and makes it fly, with a score of 0, no pipes and the
    bird where it was created. *)
Theorem X8_start_state (bw bh pw ph : Z) (file : option Z) (inp : Frame)
    (g : Game) :
  reachable bw bh pw ph file g ->
  game_started g = false -> game_over g = false ->
  (exists t0, g = set_run (initial_game bw bh file t0) (run g)) /\
  exists g',
    main_loop pw ph inp g = Some g' /\
    if existsb launch_input (events inp)
    then game_started g' = true /\ flying g' = true /\ game_over g' = false /\
         score g' = 0 /\ pipe_group g' = [] /\
         flappy g' = Bird_init bw bh 100 half_screen_height
    else g' = set_run g (run g').
Proof.
  intros Hr Hs Ho.
  destruct (reachable_start _ _ _ _ _ _ Hr Hs Ho) as (t0 & Eg).
  split; [now exists t0 | ].
  assert (Hflags : flying g = false /\ game_paused g = false /\ pipe_group g = []
                   /\ score g = 0
                   /\ flappy g = Bird_init bw bh 100 half_screen_height)
    by (rewrite Eg; now repeat split).
  destruct Hflags as (Hf & Hp & Hpipes & Hsc & Hb).
  exists (handle_events inp g).
  split; [now apply start_pass | ].
  pose proof (handle_events_start inp (events inp) g Hs Ho Hf Hp) as He.
  unfold handle_events.
  destruct (existsb launch_input (events inp)); [ | exact He].
  destruct He as (Hs' & Hf').
  split; [exact Hs' | ]. split; [exact Hf' | ].
  split; [transitivity (game_over g);
          [now apply (handle_events_keeps game_over) | exact Ho] | ].
  split; [transitivity (score g);
          [now apply (handle_events_keeps score) | exact Hsc] | ].
  split; [transitivity (pipe_group g);
          [now apply (handle_events_keeps pipe_group) | exact Hpipes] | ].
  transitivity (flappy g); [now apply (handle_events_keeps flappy) | exact Hb].
Qed.

Lemma X8_start_state_witness :
  (exists t0,
      initial_game 51 36 None 0
      = set_run (initial_game 51 36 None t0) (run (initial_game 51 36 None 0))) /\
  exists g',
    main_loop 78 560 (tap_frame [1] 1) (initial_game 51 36 None 0) = Some g' /\
    if existsb launch_input (events (tap_frame [1] 1))
    then game_started g' = true /\ flying g' = true /\ game_over g' = false /\
         score g' = 0 /\ pipe_group g' = [] /\
         flappy g' = Bird_init 51 36 100 half_screen_height
    else g' = set_run (initial_game 51 36 None 0) (run g').
Proof.
  apply (X8_start_state 51 36 78 560 None (tap_frame [1] 1)
           (initial_game 51 36 None 0)).
  - apply reach_init.
  - reflexivity.
  - reflexivity.
Defined.

(** ** Collisions end the run at once *)

Lemma bird_is_safe_ext (g g' : Game) :
  flappy g' = flappy g -> pipe_group g' = pipe_group g ->
  bird_is_safe g -> bird_is_safe g'.
Proof. unfold bird_is_safe. now intros -> ->. Qed.

(** If the collision block runs and the game is not over afterwards, none of
    its tests held and it changed nothing. *)
Lemma check_collisions_safe (g : Game) :
  game_started g = true -> game_paused g = false ->
  game_over (check_collisions g) = false ->
  bird_is_safe g /\ check_collisions g = g.
Proof.
  unfold check_collisions, end_run, bird_is_safe.
  intros -> ->. cbn [negb andb].
  destruct (groupcollide (flappy g) (pipe_group g)) eqn:Hc;
    [cbn; split_ifs; discriminate | ].
  destruct (Rect.top (rect (flappy g)) <? 0) eqn:Ht;
    [cbn; split_ifs; discriminate | ].
  cbn [orb].
  destruct (Rect.bottom (rect (flappy g)) >=? ground_level) eqn:Hb;
    [cbn; discriminate | ].
  intros _. apply Z.ltb_ge in Ht. rewrite Z.geb_leb in Hb. apply Z.leb_gt in Hb.
  now repeat split.
Qed.

(** A game that is over stays over, or is restarted with no pipes and the
    bird at (100, 350). *)
Lemma game_over_block_restart (inp : Frame) (g : Game) :
  game_over g = true ->
  game_over (game_over_block inp g) = true \/
  (pipe_group (game_over_block inp g) = [] /\
   Rect.x (rect (flappy (game_over_block inp g))) = 100 /\
   Rect.y (rect (flappy (game_over_block inp g))) = 350).
Proof.
  unfold game_over_block, restart_block, draw_game_over_screen, reset_game,
    save_high_score.
  intros Ho. rewrite Ho. cbn. split_ifs; cbn;
    first [left; exact Ho | right; repeat split; reflexivity].
Qed.

Lemma game_over_block_idle (inp : Frame) (g : Game) :
  game_over g = false -> game_over_block inp g = g.
Proof. unfold game_over_block. now intros ->. Qed.

(** A bird at (100, 350) with no pipes, and the bird where it is created
    with no pipes, are safe when the image is less than 182 high. *)
Lemma restart_place_safe (bh : Z) (g : Game) :
  0 <= bh < 182 ->
  Rect.h (rect (flappy g)) = bh ->
  pipe_group g = [] ->
  Rect.y (rect (flappy g)) = 350 \/ Rect.y (rect (flappy g)) = 350 - bh / 2 ->
  bird_is_safe g.
Proof.
  intros Hbh Hh Hp Hy. unfold bird_is_safe, Rect.top, Rect.bottom, ground_level,
    screen_height.
  rewrite Hp, Hh. split; [reflexivity | ].
  assert (0 <= bh / 2 <= bh) by (split; [apply Z.div_pos; lia | apply Z.div_le_upper_bound; lia]).
  lia.
Qed.

(** The flags of a state of the game fit together. *)
Lemma reachable_flags_ok (bw bh pw ph : Z) (file : option Z) (g : Game) :
  reachable bw bh pw ph file g -> flags_ok g.
Proof.
  induction 1 as [t0 | g inp g' _ IH _ Hstep].
  - unfold flags_ok. cbn. intuition discriminate.
  - exact (main_loop_flags_ok _ _ _ _ _ Hstep IH).
Qed.

(** X9: while a run is in progress the bird is clear of everything: in every
    state of the game in which the game is started and not over, the bird
    overlaps no pipe, its top is not above the screen and its bottom is above
    the ground.  A collision is never carried into the next pass: the pass
    in which it happens ends the run.  The image of the bird is less than
    182 high, so that the two places where the code puts the bird are above
    the ground. *)
Theorem X9_no_collision_while_playing (bw bh pw ph : Z) (file : option Z)
    (g : Game) :
  0 <= bh < 182 ->
  reachable bw bh pw ph file g ->
  game_started g = true -> game_over g = false ->
  bird_is_safe g.
Proof.
  intros Hbh. induction 1 as [t0 | g inp g' Hr IH Hrun Hstep]; intros Hs Ho.
  - discriminate.
  - assert (Hr' : reachable bw bh pw ph file g')
      by (now apply (reach_step _ _ _ _ _ g inp)).
    destruct (reachable_bird_size _ _ _ _ _ _ Hr') as (_ & Hh').
    pose proof (reachable_flags_ok _ _ _ _ _ _ Hr) as (Hfo & Hff & Hfp).
    destruct (game_started g) eqn:Hsg.
    + (* the game was started, so it was not over *)
      assert (Hog : game_over g = false).
      { destruct (game_over g); [ | reflexivity].
        destruct (Hfo eq_refl) as (H & _). discriminate. }
      destruct (game_paused g) eqn:Hpg.
      * destruct (paused_pass pw ph inp g Hpg Hsg Hog) as (g2 & Hg2 & Eb & Ep & _).
        rewrite Hstep in Hg2. injection Hg2 as <-.
        apply (bird_is_safe_ext g); try assumption. now apply IH.
      * destruct (main_loop_blocks _ _ _ _ _ Hstep) as (g1 & H1 & Eg').
        set (g4 := spawn_and_scroll pw ph inp (check_score (draw_hud g1))) in *.
        assert (Hs4 : game_started g4 = true).
        { unfold g4.
          rewrite (spawn_and_scroll_keeps game_started),
            (check_score_keeps game_started), (draw_hud_keeps game_started)
            by reflexivity.
          rewrite (update_birds_keeps game_started inp g g1)
            by (reflexivity || exact H1). exact Hsg. }
        assert (Hp4 : game_paused g4 = false).
        { unfold g4.
          rewrite (spawn_and_scroll_keeps game_paused),
            (check_score_keeps game_paused), (draw_hud_keeps game_paused)
            by reflexivity.
          rewrite (update_birds_keeps game_paused inp g g1)
            by (reflexivity || exact H1). exact Hpg. }
        assert (Eb : flappy g' = flappy (game_over_block inp (check_collisions g4)))
          by (rewrite Eg'; apply handle_events_flappy).
        assert (Ep : pipe_group g'
                     = pipe_group (game_over_block inp (check_collisions g4)))
          by (rewrite Eg'; now apply (handle_events_keeps pipe_group)).
        assert (Eo : game_over g'
                     = game_over (game_over_block inp (check_collisions g4)))
          by (rewrite Eg'; now apply (handle_events_keeps game_over)).
        destruct (game_over (check_collisions g4)) eqn:Ho5.
        -- destruct (game_over_block_restart inp _ Ho5) as [Hover | (Hp6 & _ & Hy6)].
           ++ congruence.
           ++ apply (restart_place_safe bh); try assumption;
                [congruence | left; congruence].
        -- rewrite (game_over_block_idle inp _ Ho5) in Eb, Ep.
           destruct (check_collisions_safe g4 Hs4 Hp4 Ho5) as (Hsafe & E5).
           rewrite E5 in Eb, Ep.
           now apply (bird_is_safe_ext g4).
    + destruct (game_over g) eqn:Hog.
      * (* the game was over: it has been restarted *)
        destruct (main_loop_blocks _ _ _ _ _ Hstep) as (g1 & H1 & Eg').
        set (g4 := spawn_and_scroll pw ph inp (check_score (draw_hud g1))) in *.
        assert (Ho4 : game_over g4 = true).
        { unfold g4.
          rewrite (spawn_and_scroll_keeps game_over),
            (check_score_keeps game_over), (draw_hud_keeps game_over)
            by reflexivity.
          rewrite (update_birds_keeps game_over inp g g1)
            by (reflexivity || exact H1). exact Hog. }
        assert (Ho5 : game_over (check_collisions g4) = true).
        { revert Ho4. unfold check_collisions, end_run.
          destruct g4 as [r gs fl go st pa lp sc pp fc sb hs b ps f]. cbn.
          intros ->. split_ifs; reflexivity. }
        assert (Eb : flappy g' = flappy (game_over_block inp (check_collisions g4)))
          by (rewrite Eg'; apply handle_events_flappy).
        assert (Ep : pipe_group g'
                     = pipe_group (game_over_block inp (check_collisions g4)))
          by (rewrite Eg'; now apply (handle_events_keeps pipe_group)).
        assert (Eo : game_over g'
                     = game_over (game_over_block inp (check_collisions g4)))
          by (rewrite Eg'; now apply (handle_events_keeps game_over)).
        destruct (game_over_block_restart inp _ Ho5) as [Hover | (Hp6 & _ & Hy6)].
        -- congruence.
        -- apply (restart_place_safe bh); try assumption;
             [congruence | left; congruence].
      * (* the game was waiting for its launch *)
        destruct (reachable_start _ _ _ _ _ _ Hr Hsg Hog) as (t0 & Eg).
        assert (Hflags : flying g = false /\ pipe_group g = []
                         /\ Rect.y (rect (flappy g)) = 350 - bh / 2)
          by (rewrite Eg; now repeat split).
        destruct Hflags as (Hf & Hpipes & Hy).
        rewrite (start_pass pw ph inp g Hsg Hog Hf Hpipes) in Hstep.
        injection Hstep as <-.
        apply (restart_place_safe bh); try assumption.
        -- transitivity (pipe_group g);
             [now apply (handle_events_keeps pipe_group) | exact Hpipes].
        -- right. rewrite handle_events_flappy. exact Hy.
Qed.

Lemma X9_no_collision_while_playing_witness : bird_is_safe entering_game.
Proof.
  apply (X9_no_collision_while_playing 51 36 78 560 None entering_game).
  - lia.
  - exact entering_game_reachable.
  - reflexivity.
  - reflexivity.
Defined.

(** ** After a restart *)

Lemma check_collisions_idle (g : Game) :
  game_over (check_collisions g) = false -> check_collisions g = g.
Proof.
  unfold check_collisions, end_run.
  destruct g as [r gs fl go st pa lp sc pp fc sb hs b ps f]. cbn.
  split_ifs; cbn; intros H; try discriminate; reflexivity.
Qed.

Lemma spawn_and_scroll_idle (pw ph : Z) (inp : Frame) (g : Game) :
  flying g = false -> spawn_and_scroll pw ph inp g = g.
Proof. unfold spawn_and_scroll. now intros ->. Qed.

Lemma check_score_no_pipes (g : Game) :
  pipe_group g = [] -> check_score g = g.
Proof. unfold check_score. now intros ->. Qed.

(** A game that is over stays over, or is restarted with a score of 0, no
    pipes and the bird at (100, 350). *)
Lemma game_over_block_reset (inp : Frame) (g : Game) :
  game_over g = true ->
  game_over (game_over_block inp g) = true \/
  (score (game_over_block inp g) = 0 /\
   pipe_group (game_over_block inp g) = [] /\
   Rect.x (rect (flappy (game_over_block inp g))) = 100 /\
   Rect.y (rect (flappy (game_over_block inp g))) = 350).
Proof.
  unfold game_over_block, restart_block, draw_game_over_screen, reset_game,
    save_high_score.
  intros Ho. rewrite Ho. cbn. split_ifs; cbn;
    first [left; exact Ho | right; repeat split; reflexivity].
Qed.

(** Events that leave the game not flying have not started it. *)
Lemma handle_events_not_flying (inp : Frame) (es : list Event) (g : Game) :
  flying (fold_left (handle_event inp) es g) = false ->
  game_started (fold_left (handle_event inp) es g) = game_started g /\
  flying g = false.
Proof.
  revert g; induction es as [ | e es IH]; intros g Hf; cbn [fold_left] in *;
    [now split | ].
  destruct (IH _ Hf) as (Es & Hfe). rewrite Es. clear IH Hf Es.
  revert Hfe.
  destruct g as [r gs fl go st pa lp sc pp fc sb hs b ps f]. cbn.
  destruct e as [ | | [ | | | ] | ]; cbn; split_ifs; cbn; intros H;
    try discriminate; now split.
Qed.

(** X10: after a restart the game waits: in every state of the game in which
    the game is started but not flying, the game is not over, there are no
    pipes, the score is 0 and the bird's rectangle is at (100, 350).  Nothing
    moves until an event makes the game fly. *)
Theorem X10_waiting_after_restart (bw bh pw ph : Z) (file : option Z)
    (g : Game) :
  reachable bw bh pw ph file g ->
  game_started g = true -> flying g = false ->
  game_over g = false /\
  pipe_group g = [] /\
  score g = 0 /\
  Rect.x (rect (flappy g)) = 100 /\
  Rect.y (rect (flappy g)) = 350.
Proof.
  induction 1 as [t0 | g inp g' Hr IH Hrun Hstep]; intros Hs Hf.
  - discriminate.
  - assert (Hr' : reachable bw bh pw ph file g')
      by (now apply (reach_step _ _ _ _ _ g inp)).
    assert (Ho' : game_over g' = false).
    { destruct (reachable_flags_ok _ _ _ _ _ _ Hr') as (Hfo & _).
      destruct (game_over g'); [ | reflexivity].
      destruct (Hfo eq_refl) as (H & _). congruence. }
    split; [exact Ho' | ].
    destruct (main_loop_blocks _ _ _ _ _ Hstep) as (g1 & H1 & Eg').
    set (g4 := spawn_and_scroll pw ph inp (check_score (draw_hud g1))) in *.
    set (g6 := game_over_block inp (check_collisions g4)) in *.
    assert (E6 : game_started g6 = true /\ flying g6 = false).
    { rewrite Eg' in Hs, Hf. unfold handle_events in Hs, Hf.
      destruct (handle_events_not_flying inp (events inp) g6 Hf) as (Es & Hf6).
      split; [congruence | exact Hf6]. }
    destruct E6 as (Hs6 & Hf6).
    assert (Eo : game_over g6 = false)
      by (rewrite Eg' in Ho'; rewrite <- Ho'; symmetry;
          now apply (handle_events_keeps game_over)).
    assert (Goal6 : pipe_group g6 = [] /\ score g6 = 0 /\
                    Rect.x (rect (flappy g6)) = 100 /\
                    Rect.y (rect (flappy g6)) = 350).
    { destruct (game_over (check_collisions g4)) eqn:Ho5.
      - destruct (game_over_block_reset inp _ Ho5) as [Hover | (Hsc & Hp & Hx & Hy)].
        + fold g6 in Hover. congruence.
        + now repeat split.
      - unfold g6 in *. rewrite (game_over_block_idle inp _ Ho5) in *.
        rewrite (check_collisions_idle g4 Ho5) in *.
        (* the pass began in the same waiting state *)
        assert (Hs4 : game_started g4 = game_started g).
        { unfold g4.
          rewrite (spawn_and_scroll_keeps game_started),
            (check_score_keeps game_started), (draw_hud_keeps game_started)
            by reflexivity.
          now apply (update_birds_keeps game_started inp g g1). }
        assert (Hf4 : flying g4 = flying g).
        { unfold g4.
          rewrite (spawn_and_scroll_keeps flying),
            (check_score_keeps flying), (draw_hud_keeps flying)
            by reflexivity.
          now apply (update_birds_keeps flying inp g g1). }
        rewrite Hs4 in Hs6. rewrite Hf4 in Hf6.
        destruct (IH Hs6 Hf6) as (Hog & Hpg & Hsg & Hxg & Hyg).
        assert (Hf1 : flying (check_score (draw_hud g1)) = false).
        { rewrite (check_score_keeps flying), (draw_hud_keeps flying)
            by reflexivity.
          rewrite (update_birds_keeps flying inp g g1) by (reflexivity || exact H1).
          exact Hf6. }
        assert (Hp1 : pipe_group (draw_hud g1) = []).
        { rewrite (draw_hud_keeps pipe_group) by reflexivity.
          rewrite (update_birds_keeps pipe_group inp g g1)
            by (reflexivity || exact H1).
          exact Hpg. }
        unfold g4. rewrite (spawn_and_scroll_idle pw ph inp _ Hf1).
        rewrite (check_score_no_pipes _ Hp1).
        rewrite draw_hud_flappy.
        rewrite (draw_hud_keeps pipe_group), (draw_hud_keeps score) by reflexivity.
        rewrite (update_birds_keeps pipe_group inp g g1),
          (update_birds_keeps score inp g g1) by (reflexivity || exact H1).
        split; [exact Hpg | ]. split; [exact Hsg | ].
        assert (Er : rect (flappy g1) = rect (flappy g)).
        { revert H1. unfold update_birds.
          destruct (game_started g && negb (game_paused g)).
          - destruct (Bird_update _ _ _ _) as [b | ] eqn:Hb; cbn [bind];
              [ | discriminate].
            intros H; injection H as <-. cbn.
            destruct (Bird_update_rect _ _ _ _ _ Hb) as (_ & _ & _ & Hstill).
            now apply Hstill.
          - now intros H; injection H as <-. }
        rewrite Er. now split. }
    destruct Goal6 as (Hp & Hsc & Hx & Hy).
    rewrite Eg'. rewrite handle_events_flappy.
    rewrite (handle_events_keeps pipe_group), (handle_events_keeps score)
      by reflexivity.
    now repeat split.
Qed.

Lemma restarted_game_reachable : reachable 51 36 78 560 None restarted_game.
Proof.
  apply (reach_step 51 36 78 560 None crashed_game
           (tap_frame score_then_fall 251) restarted_game).
  - exact crashed_game_reachable.
  - reflexivity.
  - exact score_then_fall_restarts.
Qed.

Lemma X10_waiting_after_restart_witness :
  game_over restarted_game = false /\
  pipe_group restarted_game = [] /\
  score restarted_game = 0 /\
  Rect.x (rect (flappy restarted_game)) = 100 /\
  Rect.y (rect (flappy restarted_game)) = 350.
Proof.
  apply (X10_waiting_after_restart 51 36 78 560 None restarted_game).
  - exact restarted_game_reachable.
  - reflexivity.
  - reflexivity.
Defined.

(** ** While the game is over *)

Lemma check_collisions_not_started (g : Game) :
  game_started g = false -> check_collisions g = g.
Proof. unfold check_collisions. now intros ->. Qed.

Lemma draw_hud_not_started (g : Game) :
  game_started g = false -> draw_hud g = g.
Proof. unfold draw_hud. now intros ->. Qed.

Lemma update_birds_not_started (inp : Frame) (g : Game) :
  game_started g = false -> update_birds inp g = Some g.
Proof. unfold update_birds. now intros ->. Qed.

(** The events never take back a start. *)
Lemma handle_events_started (inp : Frame) (es : list Event) (g : Game) :
  game_started g = true ->
  game_started (fold_left (handle_event inp) es g) = true.
Proof.
  revert g; induction es as [ | e es IH]; intros g Hs; cbn [fold_left];
    [exact Hs | ].
  apply IH. revert Hs.
  destruct g as [r gs fl go st pa lp sc pp fc sb hs b ps f]; cbn.
  intros ->.
  destruct e as [ | | [ | | | ] | ]; cbn; split_ifs; reflexivity.
Qed.

(** The block of the restart on a game that is over, by its test. *)
Lemma game_over_block_over (inp : Frame) (g : Game) :
  game_over g = true ->
  if restarts inp g
  then game_over (game_over_block inp g) = false /\
       game_started (game_over_block inp g) = true /\
       score (game_over_block inp g) = 0 /\
       pipe_group (game_over_block inp g) = [] /\
       fade_counter (game_over_block inp g) = 0
  else game_over_block inp g = set_fade_counter g (fade_counter g + 1).
Proof.
  intros Ho. unfold restarts, game_over_block. rewrite Ho.
  unfold restart_block, draw_game_over_screen, reset_game, save_high_score.
  cbn.
  destruct ((fade_counter g + 1 >? 20) && restart_pressed inp); [ | reflexivity].
  cbn. split_ifs; now repeat split.
Qed.

(** X11: a game that is over is frozen until it is restarted.  A pass over a
    state of the game that is over, whose restart test fails (the fade
    counter after its increment is at most 20, or no restart input is
    pressed), leaves the bird and the pipes where they are and the game over,
    not started, not flying and not paused, whatever the events of the pass,
    and adds one to the fade counter.  A pass whose restart test holds leaves
    the game started and not over, with a score of 0, no pipes and a fade
    counter of 0. *)
Theorem X11_game_over_frozen (bw bh pw ph : Z) (file : option Z) (inp : Frame)
    (g g' : Game) :
  reachable bw bh pw ph file g ->
  game_over g = true ->
  main_loop pw ph inp g = Some g' ->
  if restarts inp g
  then game_over g' = false /\ game_started g' = true /\ score g' = 0 /\
       pipe_group g' = [] /\ fade_counter g' = 0
  else flappy g' = flappy g /\ pipe_group g' = pipe_group g /\
       game_over g' = true /\ game_started g' = false /\ flying g' = false /\
       game_paused g' = false /\ fade_counter g' = fade_counter g + 1.
Proof.
  intros Hr Ho Hstep.
  pose proof (reachable_flags_ok _ _ _ _ _ _ Hr) as Hflags.
  pose proof (main_loop_flags_ok _ _ _ _ _ Hstep Hflags) as Hflags'.
  destruct Hflags as (Hfo & _).
  destruct (Hfo Ho) as (Hs & Hf & Hp).
  destruct (main_loop_blocks _ _ _ _ _ Hstep) as (g1 & H1 & Eg').
  rewrite (update_birds_not_started inp g Hs) in H1. injection H1 as <-.
  rewrite (draw_hud_not_started g Hs) in Eg'.
  assert (Hf3 : flying (check_score g) = false)
    by (rewrite (check_score_keeps flying) by reflexivity; exact Hf).
  rewrite (spawn_and_scroll_idle pw ph inp _ Hf3) in Eg'.
  assert (Hs3 : game_started (check_score g) = false)
    by (rewrite (check_score_keeps game_started) by reflexivity; exact Hs).
  rewrite (check_collisions_not_started _ Hs3) in Eg'.
  assert (Ho3 : game_over (check_score g) = true)
    by (rewrite (check_score_keeps game_over) by reflexivity; exact Ho).
  assert (Efade : fade_counter (check_score g) = fade_counter g)
    by (now apply (check_score_keeps fade_counter)).
  pose proof (game_over_block_over inp (check_score g) Ho3) as Hblock.
  assert (Er : restarts inp (check_score g) = restarts inp g)
    by (unfold restarts; now rewrite Efade).
  rewrite Er in Hblock.
  destruct (restarts inp g).
  - destruct Hblock as (Ho6 & Hs6 & Hsc6 & Hp6 & Hfc6).
    rewrite Eg'.
    rewrite (handle_events_keeps game_over), (handle_events_keeps score),
      (handle_events_keeps pipe_group), (handle_events_keeps fade_counter)
      by reflexivity.
    repeat split; try assumption.
    unfold handle_events. now apply handle_events_started.
  - rewrite Hblock in Eg'.
    assert (Ho' : game_over g' = true).
    { rewrite Eg'. rewrite (handle_events_keeps game_over) by reflexivity.
      exact Ho3. }
    destruct Hflags' as (Hfo' & _).
    destruct (Hfo' Ho') as (Hs' & Hf' & Hp').
    rewrite Eg' at 1 2 7.
    rewrite handle_events_flappy.
    rewrite (handle_events_keeps pipe_group), (handle_events_keeps fade_counter)
      by reflexivity.
    cbn [flappy pipe_group fade_counter set_fade_counter].
    rewrite check_score_flappy, (check_score_keeps pipe_group) by reflexivity.
    rewrite Efade. now repeat split.
Qed.

Lemma X11_game_over_frozen_witness :
  if restarts (tap_frame score_then_fall 251) crashed_game
  then game_over restarted_game = false /\ game_started restarted_game = true /\
       score restarted_game = 0 /\ pipe_group restarted_game = [] /\
       fade_counter restarted_game = 0
  else flappy restarted_game = flappy crashed_game /\
       pipe_group restarted_game = pipe_group crashed_game /\
       game_over restarted_game = true /\ game_started restarted_game = false /\
       flying restarted_game = false /\ game_paused restarted_game = false /\
       fade_counter restarted_game = fade_counter crashed_game + 1.
Proof.
  apply (X11_game_over_frozen 51 36 78 560 None (tap_frame score_then_fall 251)
           crashed_game restarted_game).
  - exact crashed_game_reachable.
  - reflexivity.
  - exact score_then_fall_restarts.
Defined.

(** ** The score over the passes of one pipe *)

(** A pass that does not meet the restart test leaves the score, the bird
    and the pipes to the other blocks. *)
Lemma game_over_block_no_restart (inp : Frame) (g : Game) :
  restarts inp g = false ->
  score (game_over_block inp g) = score g /\
  flappy (game_over_block inp g) = flappy g.
Proof.
  unfold restarts, game_over_block. intros Hno.
  destruct (game_over g); [ | now split].
  unfold restart_block, draw_game_over_screen.
  cbn [fade_counter set_fade_counter]. rewrite Hno. now split.
Qed.

(** The scoring block reads the bird's left and right edges, the score and
    the flag, and nothing else of the game. *)
Lemma score_block_tally (b b' r : Rect.t) (g g' : Game) :
  Rect.x b' = Rect.x b -> Rect.w b' = Rect.w b ->
  score g' = score g -> pass_pipe g' = pass_pipe g ->
  score (score_block b' r g') = score (score_block b r g) /\
  pass_pipe (score_block b' r g') = pass_pipe (score_block b r g).
Proof.
  intros Hx Hw Hs Hp.
  destruct (score_block_step b' r g') as (-> & ->).
  destruct (score_block_step b r g) as (-> & ->).
  destruct (span_tests_ext b b' r Hx Hw) as (-> & ->).
  now rewrite Hs, Hp.
Qed.

Lemma check_score_tally (g g' : Game) :
  pipe_group g' = pipe_group g -> game_paused g' = game_paused g ->
  Rect.x (rect (flappy g')) = Rect.x (rect (flappy g)) ->
  Rect.w (rect (flappy g')) = Rect.w (rect (flappy g)) ->
  score g' = score g -> pass_pipe g' = pass_pipe g ->
  score (check_score g') = score (check_score g) /\
  pass_pipe (check_score g') = pass_pipe (check_score g).
Proof.
  intros Hg Hpa Hx Hw Hs Hp. unfold check_score. rewrite Hg, Hpa.
  destruct (pipe_group g) as [ | p ps]; [now split | ].
  destruct (negb (game_paused g)); [ | now split].
  now apply score_block_tally.
Qed.

(** One pass without a restart: the score and the flag are those the
    scoring block computes from the state the pass starts in, and the bird
    stays in its column. *)
Lemma main_loop_tally (pw ph : Z) (inp : Frame) (g g' : Game) :
  main_loop pw ph inp g = Some g' ->
  restarts inp g = false ->
  Rect.x (rect (flappy g')) = Rect.x (rect (flappy g)) /\
  Rect.w (rect (flappy g')) = Rect.w (rect (flappy g)) /\
  score g' = score (check_score g) /\
  pass_pipe g' = pass_pipe (check_score g).
Proof.
  intros Hloop Hno.
  destruct (main_loop_blocks _ _ _ _ _ Hloop) as (g1 & H1 & ->).
  destruct (update_birds_pass _ _ _ H1) as (Hp1 & Hg1 & Hpa1 & Hx & Hw).
  destruct (draw_hud_pass g1) as (Hp2 & Hg2 & Hpa2).
  assert (Hs1 : score g1 = score g)
    by (now apply (update_birds_keeps score inp g)).
  assert (Hf1 : fade_counter g1 = fade_counter g)
    by (now apply (update_birds_keeps fade_counter inp g)).
  set (g3 := check_score (draw_hud g1)).
  set (g5 := check_collisions (spawn_and_scroll pw ph inp g3)).
  assert (Hf5 : fade_counter g5 = fade_counter g).
  { unfold g5, g3.
    rewrite (check_collisions_keeps fade_counter),
      (spawn_and_scroll_keeps fade_counter), (check_score_keeps fade_counter),
      (draw_hud_keeps fade_counter) by reflexivity.
    exact Hf1. }
  assert (Hno5 : restarts inp g5 = false)
    by (unfold restarts in *; now rewrite Hf5).
  destruct (game_over_block_no_restart inp g5 Hno5) as (Hs6 & Hb6).
  assert (Hb : flappy (handle_events inp (game_over_block inp g5)) = flappy g1).
  { rewrite handle_events_flappy, Hb6. unfold g5, g3.
    now rewrite check_collisions_flappy, spawn_and_scroll_flappy,
      check_score_flappy, draw_hud_flappy. }
  destruct (check_score_tally g (draw_hud g1)) as (Hs3 & Hp3).
  { congruence. }
  { congruence. }
  { now rewrite draw_hud_flappy. }
  { now rewrite draw_hud_flappy. }
  { rewrite (draw_hud_keeps score) by reflexivity. exact Hs1. }
  { congruence. }
  rewrite Hb. split; [exact Hx | ]. split; [exact Hw | ]. split.
  - rewrite (handle_events_keeps score) by reflexivity. rewrite Hs6.
    unfold g5.
    rewrite (check_collisions_keeps score), (spawn_and_scroll_keeps score)
      by reflexivity.
    exact Hs3.
  - rewrite (handle_events_keeps pass_pipe) by reflexivity.
    rewrite game_over_block_pass. unfold g5.
    rewrite check_collisions_pass, spawn_and_scroll_pass. exact Hp3.
Qed.

Lemma score_run_app (b : Rect.t) (rs1 rs2 : list Rect.t) (g : Game) :
  score_run b (rs1 ++ rs2) g = score_run b rs2 (score_run b rs1 g).
Proof.
  revert g; induction rs1 as [ | r rs1 IH]; intros g; cbn [app score_run];
    [reflexivity | apply IH].
Qed.

(** The passes of a session without a restart do to the score and to the
    flag what the scoring block does over the rectangles it tests. *)
Lemma main_loops_tally (pw ph : Z) (b : Rect.t) (inps : list Frame)
    (g g' g0 : Game) :
  main_loops pw ph inps g = Some g' ->
  no_restart pw ph inps g = true ->
  Rect.x (rect (flappy g)) = Rect.x b -> Rect.w (rect (flappy g)) = Rect.w b ->
  score g0 = score g -> pass_pipe g0 = pass_pipe g ->
  score (score_run b (tested_rects pw ph inps g) g0) = score g' /\
  pass_pipe (score_run b (tested_rects pw ph inps g) g0) = pass_pipe g'.
Proof.
  revert g g0; induction inps as [ | inp inps IH]; intros g g0 Hloops Hno Hx Hw Hs Hp;
    cbn [main_loops tested_rects no_restart] in *.
  - injection Hloops as <-. now split.
  - destruct (run g).
    + destruct (main_loop pw ph inp g) as [g1 | ] eqn:Hloop; cbn [bind] in Hloops;
        [ | discriminate].
      apply Bool.andb_true_iff in Hno as (Hno1 & Hno).
      apply Bool.negb_true_iff in Hno1.
      destruct (main_loop_tally _ _ _ _ _ Hloop Hno1) as (Hx1 & Hw1 & Hs1 & Hp1).
      rewrite score_run_app.
      apply (IH g1); try assumption; try congruence.
      * rewrite Hs1. unfold check_score.
        destruct (pipe_group g) as [ | p ps]; [exact Hs | ].
        destruct (game_paused g); cbn [negb score_run]; [exact Hs | ].
        now apply score_block_tally.
      * rewrite Hp1. unfold check_score.
        destruct (pipe_group g) as [ | p ps]; [exact Hp | ].
        destruct (game_paused g); cbn [negb score_run]; [exact Hp | ].
        now apply score_block_tally.
    + injection Hloops as <-. now split.
Qed.

Lemma descending_moving_left (rs : list Rect.t) :
  descending rs = true -> moving_left rs.
Proof.
  induction rs as [ | r rs IH]; [easy | ].
  destruct rs as [ | r' rs']; [intros _; split; [constructor | exact I] | ].
  cbn [descending]. intros H. apply Bool.andb_true_iff in H as (Hle & Hrest).
  apply Z.leb_le in Hle. specialize (IH Hrest).
  split; [ | exact IH].
  constructor; [exact Hle | ].
  destruct IH as (Hall & _).
  eapply Forall_impl; [ | exact Hall]. cbv beta. intros r0 Hr0. lia.
Qed.

(** C4 (as amended): the scoring block tests the first pipe of the group
    only.  Over the passes of a session without a restart, during which the
    rectangle it tests never moves to the right (one pair stays the first of
    the group), the score goes up by exactly 1 if the bird passed that pair
    (on a pass that was tested the bird was strictly inside its span, or the
    pass flag was set at the start, and on a later tested pass the bird's
    left edge was strictly beyond its right edge), and stays as it is
    otherwise, however many passes there are; passes of a paused game are
    not tested.  On a single pass without a restart, over a game that is not
    paused, the score goes up exactly when the flag is set or the bird is
    strictly inside the span of the first pipe, and the bird's left edge is
    strictly beyond that pipe's right edge. *)
Theorem C4_score_once (pw ph : Z) (inps : list Frame) (g g' : Game) :
  0 <= Rect.w (rect (flappy g)) ->
  main_loops pw ph inps g = Some g' ->
  no_restart pw ph inps g = true ->
  moving_left (tested_rects pw ph inps g) ->
  score g <= score g' <= score g + 1 /\
  (score g' = score g + 1 <->
   passed (pass_pipe g) (rect (flappy g)) (tested_rects pw ph inps g)) /\
  (forall inp g1 p ps,
      main_loop pw ph inp g = Some g1 ->
      restarts inp g = false ->
      pipe_group g = p :: ps ->
      game_paused g = false ->
      (score g1 = score g + 1 <->
       (pass_pipe g = true \/
        (Rect.left (pipe_rect p) < Rect.left (rect (flappy g)) /\
         Rect.right (rect (flappy g)) < Rect.right (pipe_rect p))) /\
       Rect.right (pipe_rect p) < Rect.left (rect (flappy g)))).
Proof.
  intros Hw Hloops Hno Hmove.
  destruct (main_loops_tally pw ph (rect (flappy g)) inps g g' g Hloops Hno)
    as (Hs & _); try reflexivity.
  rewrite <- Hs.
  destruct (score_run_once (rect (flappy g)) (tested_rects pw ph inps g) g Hw Hmove)
    as [(Hp & Hs') | (Hp & Hs')].
  - split; [lia | ]. split; [tauto | ].
    intros inp g1 p ps Hloop Hno1 Hg Hpa.
    destruct (main_loop_tally _ _ _ _ _ Hloop Hno1) as (_ & _ & -> & _).
    unfold check_score. rewrite Hg, Hpa. cbn [negb].
    apply score_block_credit.
  - split; [lia | ]. split; [split; [lia | tauto] | ].
    intros inp g1 p ps Hloop Hno1 Hg Hpa.
    destruct (main_loop_tally _ _ _ _ _ Hloop Hno1) as (_ & _ & -> & _).
    unfold check_score. rewrite Hg, Hpa. cbn [negb].
    apply score_block_credit.
Qed.

(** The first 172 passes of the session [score_then_fall]: the bird flies
    through the first pair of pipes and the score goes from 0 to 1. *)
Lemma C4_score_once_witness :
  score (initial_game 51 36 None 0) <= score credited_game
    <= score (initial_game 51 36 None 0) + 1 /\
  (score credited_game = score (initial_game 51 36 None 0) + 1 <->
   passed (pass_pipe (initial_game 51 36 None 0))
     (rect (flappy (initial_game 51 36 None 0)))
     (tested_rects 78 560 (play score_then_fall 172) (initial_game 51 36 None 0))) /\
  (forall inp g1 p ps,
      main_loop 78 560 inp (initial_game 51 36 None 0) = Some g1 ->
      restarts inp (initial_game 51 36 None 0) = false ->
      pipe_group (initial_game 51 36 None 0) = p :: ps ->
      game_paused (initial_game 51 36 None 0) = false ->
      (score g1 = score (initial_game 51 36 None 0) + 1 <->
       (pass_pipe (initial_game 51 36 None 0) = true \/
        (Rect.left (pipe_rect p) < Rect.left (rect (flappy (initial_game 51 36 None 0))) /\
         Rect.right (rect (flappy (initial_game 51 36 None 0))) < Rect.right (pipe_rect p))) /\
       Rect.right (pipe_rect p) < Rect.left (rect (flappy (initial_game 51 36 None 0))))).
Proof.
  apply (C4_score_once 78 560 (play score_then_fall 172)
           (initial_game 51 36 None 0) credited_game).
  - cbn. lia.
  - vm_compute. reflexivity.
  - vm_compute. reflexivity.
  - apply descending_moving_left. vm_compute. reflexivity.
Defined.

(** C4 fails as stated: a pair that is not the first of the group when the
    bird passes it is not credited.  In the session [pause_then_play] the
    second pair of pipes is made 9 pixels behind the first.  After 250
    passes the bird is strictly inside the span of both and the score is 0;
    52 passes later, with no restart and the game not over, both pairs have
    left the group behind the bird and the score is 1, not 2. *)
Lemma C4_counterexample :
  main_loops 78 560 (pause_then_play 246) (initial_game 51 36 None 0)
    = Some inside_both_game /\
  map pipe_rect (pipe_group inside_both_game) =
    [Rect.mk 65 430 78 560; Rect.mk 65 (-290) 78 560;
     Rect.mk 74 430 78 560; Rect.mk 74 (-290) 78 560;
     Rect.mk 392 430 78 560; Rect.mk 392 (-290) 78 560] /\
  inside_span (rect (flappy inside_both_game)) (Rect.mk 65 430 78 560) = true /\
  inside_span (rect (flappy inside_both_game)) (Rect.mk 74 430 78 560) = true /\
  score inside_both_game = 0 /\
  main_loops 78 560 (play_from two_close_pairs 251 52) inside_both_game
    = Some after_pairs_game /\
  no_restart 78 560 (play_from two_close_pairs 251 52) inside_both_game = true /\
  game_over after_pairs_game = false /\
  map pipe_rect (pipe_group after_pairs_game) =
    [Rect.mk 236 430 78 560; Rect.mk 236 (-290) 78 560] /\
  cleared (rect (flappy after_pairs_game)) (Rect.mk 236 430 78 560) = false /\
  score after_pairs_game = 1.
Proof.
  split; [vm_compute; reflexivity | ].
  split; [reflexivity | ].
  split; [reflexivity | ].
  split; [reflexivity | ].
  split; [reflexivity | ].
  split; [vm_compute; reflexivity | ].
  split; [vm_compute; reflexivity | ].
  repeat split.
Qed.

(** ** The restart, over a whole pass *)

(** In a game that is over and not paused, an event can only end the loop. *)
Lemma handle_event_over (inp : Frame) (g : Game) (e : Event) :
  game_over g = true -> game_paused g = false ->
  handle_event inp g e = set_run g (run (handle_event inp g e)).
Proof.
  destruct g as [r gs fl go st pa lp sc pp fc sb hs b ps f]. cbn.
  intros -> ->.
  destruct e as [ | | [ | | | ] | ], fl, st; cbn; split_ifs; reflexivity.
Qed.

Lemma handle_events_over (inp : Frame) (es : list Event) (g : Game) :
  game_over g = true -> game_paused g = false ->
  fold_left (handle_event inp) es g
  = set_run g (run (fold_left (handle_event inp) es g)).
Proof.
  revert g; induction es as [ | e es IH]; intros g Ho Hp; cbn [fold_left].
  - now destruct g.
  - pose proof (handle_event_over inp g e Ho Hp) as He.
    set (g1 := handle_event inp g e) in *.
    assert (Ho1 : game_over g1 = true) by (rewrite He; exact Ho).
    assert (Hp1 : game_paused g1 = false) by (rewrite He; exact Hp).
    rewrite (IH g1 Ho1 Hp1).
    set (r := run (fold_left (handle_event inp) es g1)).
    rewrite He. cbn [run set_run]. now destruct g.
Qed.

(** C3 (as amended): a pass over a game that is over first runs the scoring
    block, then adds one to the fade counter, and then tests for the
    restart.  If the counter is then at most 20, or no restart input is
    pressed, the input has no effect: apart from what the scoring block and
    the counter do on every such pass, only [run] can change.  If the
    counter is above 20 and a restart input is pressed, the game is reset:
    the score is 0, there are no pipes, the fade counter is 0, the game is
    not over and is started again.  The restart does not reset the bird's
    velocity, latch and animation counters: they are left as they were. *)
Theorem C3_restart_debounce (bw bh pw ph : Z) (file : option Z) (inp : Frame)
    (g g' : Game) :
  reachable bw bh pw ph file g ->
  game_over g = true ->
  main_loop pw ph inp g = Some g' ->
  if (fade_counter g + 1 >? 20) && restart_pressed inp then
    score g' = 0 /\ pipe_group g' = [] /\ fade_counter g' = 0 /\
    game_over g' = false /\ game_started g' = true /\
    vel (flappy g') = vel (flappy g) /\
    clicked (flappy g') = clicked (flappy g) /\
    counter (flappy g') = counter (flappy g) /\
    index (flappy g') = index (flappy g)
  else
    g' = set_run (set_fade_counter (check_score g) (fade_counter g + 1)) (run g').
Proof.
  intros Hr Ho Hstep.
  destruct (reachable_flags_ok _ _ _ _ _ _ Hr) as (Hfo & _).
  destruct (Hfo Ho) as (Hs & Hf & Hp).
  destruct (main_loop_blocks _ _ _ _ _ Hstep) as (g1 & H1 & Eg').
  rewrite (update_birds_not_started inp g Hs) in H1. injection H1 as <-.
  rewrite (draw_hud_not_started g Hs) in Eg'.
  assert (Hf3 : flying (check_score g) = false)
    by (rewrite (check_score_keeps flying) by reflexivity; exact Hf).
  rewrite (spawn_and_scroll_idle pw ph inp _ Hf3) in Eg'.
  assert (Hs3 : game_started (check_score g) = false)
    by (rewrite (check_score_keeps game_started) by reflexivity; exact Hs).
  rewrite (check_collisions_not_started _ Hs3) in Eg'.
  assert (Ho3 : game_over (check_score g) = true)
    by (rewrite (check_score_keeps game_over) by reflexivity; exact Ho).
  assert (Hp3 : game_paused (check_score g) = false)
    by (rewrite (check_score_keeps game_paused) by reflexivity; exact Hp).
  assert (Efade : fade_counter (check_score g) = fade_counter g)
    by (now apply (check_score_keeps fade_counter)).
  pose proof (game_over_block_over inp (check_score g) Ho3) as Hblock.
  destruct (game_over_block_bird inp (check_score g)) as (Hv & Hc & Hn & Hi).
  unfold restarts in Hblock. rewrite Efade in Hblock.
  destruct ((fade_counter g + 1 >? 20) && restart_pressed inp).
  - destruct Hblock as (Ho6 & Hs6 & Hsc6 & Hp6 & Hfc6).
    rewrite Eg'.
    rewrite (handle_events_keeps game_over), (handle_events_keeps score),
      (handle_events_keeps pipe_group), (handle_events_keeps fade_counter)
      by reflexivity.
    rewrite handle_events_flappy, Hv, Hc, Hn, Hi, check_score_flappy.
    repeat split; try assumption.
    unfold handle_events. now apply handle_events_started.
  - rewrite Hblock in Eg'. rewrite Eg' at 1. unfold handle_events.
    rewrite handle_events_over by assumption.
    rewrite Eg'. reflexivity.
Qed.

(** The game that ended on the ground in the session [score_then_fall]:
    with the space bar down and a fade counter of 29 it is restarted. *)
Lemma C3_restart_debounce_witness :
  if (fade_counter crashed_game + 1 >? 20) && restart_pressed (space_held 4267) then
    score restarted_game = 0 /\ pipe_group restarted_game = [] /\
    fade_counter restarted_game = 0 /\
    game_over restarted_game = false /\ game_started restarted_game = true /\
    vel (flappy restarted_game) = vel (flappy crashed_game) /\
    clicked (flappy restarted_game) = clicked (flappy crashed_game) /\
    counter (flappy restarted_game) = counter (flappy crashed_game) /\
    index (flappy restarted_game) = index (flappy crashed_game)
  else
    restarted_game
    = set_run (set_fade_counter (check_score crashed_game)
                 (fade_counter crashed_game + 1)) (run restarted_game).
Proof.
  apply (C3_restart_debounce 51 36 78 560 None (space_held 4267) crashed_game
           restarted_game).
  - exact crashed_game_reachable.
  - reflexivity.
  - vm_compute. reflexivity.
Defined.
